(** * The HTTP polling transport of mettle (src/c2_http.c)

    A shallow embedding of the per-channel context [struct http_ctx], of
    the two callbacks that drive it ([http_poll_timer_cb] and
    [http_poll_cb]), of the first-contact URI rewrite [patch_uri] and of
    the lifecycle hooks, followed by the properties of the polling state
    machine.

    Conventions.
    - C strings are [string]s (the bytes before the terminator); a pointer
      into a string buffer is an offset, [None] is the null pointer.  A
      buffer whose allocation goes on behind the terminator comes with
      its tail, the C string that follows.
    - C [int] flags are [Z]; a test [if (x)] is [negb (x =? 0)].
    - [double] is IEEE 754 binary64, computed with [SpecFloat].
    - A callback returns the new context and the list of calls it made
      into its collaborators (HTTP client, event loop, framework), oldest
      first.  A run that would dereference a null pointer or read past a
      buffer returns a [Fault] instead. *)

From Stdlib Require Import ZArith List String Ascii Bool Lia QArith.
From Stdlib Require Import Floats.SpecFloat.
Import ListNotations.

Local Open Scope Z_scope.

(** ** Outcomes of a C function that may hit undefined behaviour *)

Inductive fault : Type :=
| NullDeref      (* a null pointer handed to a function that reads it *)
| OutOfBounds    (* a read past the end of the allocation of a string *)
| NotEnabled.    (* event loop only: the event cannot occur in this state *)

Inductive outcome (A : Type) : Type :=
| Ok (a : A)
| Fault (f : fault).

Arguments Ok {A} a.
Arguments Fault {A} f.

Definition bind {A B : Type} (c : outcome A) (k : A -> outcome B) : outcome B :=
  match c with
  | Ok a => k a
  | Fault f => Fault f
  end.

Notation "x <- c ;; k" := (bind c (fun x => k))
  (at level 61, c at next level, right associativity).
Notation "' p <- c ;; k" := (bind c (fun x => let p := x in k))
  (at level 61, p pattern, c at next level, right associativity).

(** ** C strings *)

Module CString.

Local Open Scope string_scope.

(** The suffix of [s] that starts at offset [n]. *)
Fixpoint drop (n : nat) (s : string) : string :=
  match n, s with
  | O, _ => s
  | S n', String _ s' => drop n' s'
  | S _, EmptyString => EmptyString
  end.

(** The first [n] characters of [s]: what the buffer holds once a
    terminator is stored at offset [n]. *)
Fixpoint take (n : nat) (s : string) : string :=
  match n, s with
  | O, _ => EmptyString
  | S n', String a s' => String a (take n' s')
  | S _, EmptyString => EmptyString
  end.

(** [strchr s c] for [c] other than the terminator: the offset of the
    first [c], or the null pointer. *)
Fixpoint strchr (s : string) (c : ascii) : option nat :=
  match s with
  | EmptyString => None
  | String a s' =>
      if Ascii.eqb a c then Some O else option_map S (strchr s' c)
  end.

(** [strchr(buf + p, c)] as an offset into the allocation of [buf].
    The string takes the offsets below [length buf] and its terminator
    the next one; [tail], when the allocation goes on, is the C string
    that starts right behind that terminator.  A pointer beyond the
    allocation cannot be read. *)
Definition strchr_at (buf : string) (tail : option string) (p : nat)
  (c : ascii) : outcome (option nat) :=
  if (p <=? String.length buf)%nat
  then Ok (option_map (Nat.add p) (strchr (drop p buf) c))
  else
    match tail with
    | Some t =>
        let k := (p - S (String.length buf))%nat in
        if (k <=? String.length t)%nat
        then Ok (option_map (Nat.add p) (strchr (drop k t) c))
        else Fault OutOfBounds
    | None => Fault OutOfBounds
    end.

(** [*split = '\0']: the string the buffer reads afterwards and what
    then lies behind its terminator. *)
Definition cut (buf : string) (tail : option string) (split : option nat)
  : string * option string :=
  match split with
  | None => (buf, tail)
  | Some p =>
      if (p <? String.length buf)%nat
      then (take p buf, Some (drop (S p) buf))
      else if (p =? String.length buf)%nat then (buf, tail)
      else (buf, option_map (take (p - S (String.length buf))) tail)
  end.

Definition strcmp (a b : string) : Z :=
  match String.compare a b with
  | Eq => 0
  | Lt => -1
  | Gt => 1
  end.

(** Number of occurrences of [c] in [s]. *)
Fixpoint count (c : ascii) (s : string) : nat :=
  match s with
  | EmptyString => O
  | String a s' => ((if Ascii.eqb a c then 1 else 0) + count c s')%nat
  end.

End CString.

(** ** [asprintf]

    The allocation inside [asprintf] either succeeds or fails.  On
    failure the function returns -1 and the C library decides what is
    left in [*strp]: some leave it as it was, some store a null pointer. *)

Inductive strp_effect : Type := strp_untouched | strp_null.

Inductive allocator : Type :=
| alloc_ok
| alloc_fail (e : strp_effect).

(** [asprintf(strp, "%s%s", s1, s2)]: the return value and the new [*strp]. *)
Definition asprintf (a : allocator) (strp : option string) (s1 s2 : string)
  : Z * option string :=
  match a with
  | alloc_ok =>
      (Z.of_nat (String.length (s1 ++ s2)), Some (s1 ++ s2)%string)
  | alloc_fail strp_untouched => (-1, strp)
  | alloc_fail strp_null => (-1, None)
  end.

(** What lies behind the string [*strp] reads after the call: a new
    buffer holds the printed string and nothing more, a pointer left
    alone still points into the old allocation. *)
Definition tail_left (a : allocator) (old_tail : option string)
  : option string :=
  match a with
  | alloc_fail strp_untouched => old_tail
  | _ => None
  end.

(** ** The frame codec (tlv.h)

    Modelled from the spec: the type-length-value codec is a collaborator
    whose sources are not part of this file.  A decoded packet is a
    sequence of typed string values; [tlv_packet_get_str] returns the
    first value of the given type, or the null pointer when the packet
    has none. *)

Inductive tlv_type : Type :=
| TLV_TYPE_METHOD
| TLV_TYPE_TRANS_URL
| TLV_TYPE_OTHER (n : Z).

Definition tlv_type_eqb (a b : tlv_type) : bool :=
  match a, b with
  | TLV_TYPE_METHOD, TLV_TYPE_METHOD => true
  | TLV_TYPE_TRANS_URL, TLV_TYPE_TRANS_URL => true
  | TLV_TYPE_OTHER n, TLV_TYPE_OTHER m => n =? m
  | _, _ => false
  end.

Definition tlv_packet : Type := list (tlv_type * string).

Fixpoint tlv_packet_get_str (p : tlv_packet) (t : tlv_type) : option string :=
  match p with
  | [] => None
  | (t', v) :: p' =>
      if tlv_type_eqb t' t then Some v else tlv_packet_get_str p' t
  end.

(** ** IEEE 754 binary64 *)

Module Double.

Definition prec : Z := 53.
Definition emax : Z := 1024.

Definition of_Z (z : Z) : spec_float := binary_normalize prec emax z 0 false.

Definition add : spec_float -> spec_float -> spec_float := SFadd prec emax.
Definition div : spec_float -> spec_float -> spec_float := SFdiv prec emax.
Definition ltb : spec_float -> spec_float -> bool := SFltb.
Definition leb : spec_float -> spec_float -> bool := SFleb.

(** The literals of the source, each the double nearest to the decimal. *)
Definition d0_01 : spec_float := S754_finite false 5764607523034235 (-59).
Definition d0_1 : spec_float := S754_finite false 7205759403792794 (-56).
Definition d5_0 : spec_float := S754_finite false 5629499534213120 (-50).
Definition zero : spec_float := S754_zero false.

(** The exact rational value of a finite double. *)
Definition to_Q (x : spec_float) : option Q :=
  match x with
  | S754_zero _ => Some 0%Q
  | S754_finite s m e =>
      let mz := if s then Z.neg m else Z.pos m in
      Some (if 0 <=? e then inject_Z (mz * 2 ^ e)
            else Qmake mz (Z.to_pos (2 ^ (- e))))
  | _ => None
  end.

End Double.

(** ** The channel context and the calls into collaborators *)

Definition bytes : Type := list Byte.byte.

(** [struct http_ctx].  [uri] is the string the pointer reads and
    [uri_tail] what its allocation holds behind the terminator (null
    when the allocation ends there); [egress] is the pointer to the
    outbound byte queue together with the queue's contents;
    [content]/[content_len] are the two fields of [data] that change
    after initialisation; [repeat] is [poll_timer.repeat].  The back
    pointer [t] and the request configuration that is fixed at
    initialisation (headers, content type, options) are left out. *)
Record http_ctx : Type := mk_ctx {
  uri : option string;
  uri_tail : option string;
  repeat : spec_float;
  content : option bytes;
  content_len : Z;
  egress : option bytes;
  first_packet : Z;
  in_flight : Z;
  running : Z
}.

(** [uri] reads [v] and [tl] lies behind it. *)
Definition set_uri_buffer (v tl : option string) (c : http_ctx) : http_ctx :=
  mk_ctx v tl (repeat c) (content c) (content_len c) (egress c)
         (first_packet c) (in_flight c) (running c).
(** [uri] points to a buffer that holds [v] and nothing more. *)
Definition set_uri (v : option string) (c : http_ctx) : http_ctx :=
  set_uri_buffer v None c.
Definition set_repeat (v : spec_float) (c : http_ctx) : http_ctx :=
  mk_ctx (uri c) (uri_tail c) v (content c) (content_len c) (egress c)
         (first_packet c) (in_flight c) (running c).
Definition set_data (p : option bytes) (n : Z) (c : http_ctx) : http_ctx :=
  mk_ctx (uri c) (uri_tail c) (repeat c) p n (egress c)
         (first_packet c) (in_flight c) (running c).
Definition set_egress (v : option bytes) (c : http_ctx) : http_ctx :=
  mk_ctx (uri c) (uri_tail c) (repeat c) (content c) (content_len c) v
         (first_packet c) (in_flight c) (running c).
Definition set_first_packet (v : Z) (c : http_ctx) : http_ctx :=
  mk_ctx (uri c) (uri_tail c) (repeat c) (content c) (content_len c) (egress c)
         v (in_flight c) (running c).
Definition set_in_flight (v : Z) (c : http_ctx) : http_ctx :=
  mk_ctx (uri c) (uri_tail c) (repeat c) (content c) (content_len c) (egress c)
         (first_packet c) v (running c).
Definition set_running (v : Z) (c : http_ctx) : http_ctx :=
  mk_ctx (uri c) (uri_tail c) (repeat c) (content c) (content_len c) (egress c)
         (first_packet c) (in_flight c) v.

Inductive http_method : Type := http_request_get | http_request_post.

(** What [http_request] is handed: the URI, the verb and the body fields
    of [data] as they stand at the call. *)
Record http_req : Type := mk_req {
  req_uri : option string;
  req_method : http_method;
  req_content : option bytes;
  req_content_len : Z
}.

(** A completed exchange as the completion callback sees it. *)
Record http_conn : Type := mk_conn {
  http_conn_response_code : Z;
  http_conn_response_queue : bytes
}.

(** Calls made by this file into its collaborators and into the allocator. *)
Inductive effect : Type :=
| c2_transport_reachable
| c2_transport_unreachable
| c2_transport_ingress_queue (q : bytes)
| http_request (r : http_req)
| ev_timer_again (after : spec_float)
| buffer_queue_free (q : option bytes)
| free_uri (s : option string)
| free_ctx.

Definition buffer_queue_len (q : bytes) : Z := Z.of_nat (List.length q).

Definition is_request (e : effect) : option http_req :=
  match e with
  | http_request r => Some r
  | _ => None
  end.

(** The requests among a list of calls, oldest first. *)
Fixpoint requests (l : list effect) : list http_req :=
  match l with
  | [] => []
  | e :: l' =>
      match is_request e with
      | Some r => r :: requests l'
      | None => requests l'
      end
  end.

(** The body a request carries on the wire. *)
Definition req_body (r : http_req) : bytes :=
  match req_content r with
  | Some b => b
  | None => []
  end.

Section Transport.

Import CString.

(** The decoder of the frame codec, [tlv_packet_read_buffer_queue]:
    one packet from the head of the queue, or null. *)
Variable tlv_packet_read_buffer_queue : bytes -> option tlv_packet.

(** The loop of [patch_uri]: [n] rounds of
    [if (split == NULL) break; split = strchr(++split, '/')]. *)
Fixpoint find_split (buf : string) (tail : option string) (n : nat)
  (split : option nat) : outcome (option nat) :=
  match n with
  | O => Ok split
  | S n' =>
      match split with
      | None => Ok None
      | Some p =>
          split' <- strchr_at buf tail (S p) "/" ;;
          find_split buf tail n' split'
      end
  end.

Definition patch_uri (a : allocator) (ctx : http_ctx) (q : bytes)
  : outcome (http_ctx * list effect) :=
  match tlv_packet_read_buffer_queue q with
  | None => Ok (ctx, [])
  | Some request =>
      let method := tlv_packet_get_str request TLV_TYPE_METHOD in
      let new_uri := tlv_packet_get_str request TLV_TYPE_TRANS_URL in
      match method with
      | None => Fault NullDeref                  (* strcmp(NULL, ...) *)
      | Some m =>
          match strcmp m "core_patch_url" =? 0, new_uri with
          | true, Some nu =>
              match uri ctx with
              | None => Fault NullDeref          (* "%s" of a null uri *)
              | Some buf =>
                  split <- find_split buf (uri_tail ctx) 3 (Some O) ;;
                  (* *split = '\0' rewrites the buffer in place: both
                     old_uri and ctx->uri now read the shortened string *)
                  let buf' := fst (cut buf (uri_tail ctx) split) in
                  let tail' := snd (cut buf (uri_tail ctx) split) in
                  let '(n, strp) := asprintf a (Some buf') buf' nu in
                  Ok (set_uri_buffer strp (tail_left a tail') ctx,
                      if 0 <? n then [free_uri (Some buf')] else [])
              end
          | _, _ => Ok (ctx, [])
          end
      end
  end.

(** Lines 66-80 of [http_poll_cb]: the context after command detection,
    the local [got_command], and the calls made. *)
Definition detect_command (a : allocator) (conn : http_conn) (ctx : http_ctx)
  : outcome (http_ctx * bool * list effect) :=
  if http_conn_response_code conn =? 200 then
    let q := http_conn_response_queue conn in
    if negb (first_packet ctx =? 0) then
      '(ctx', fx) <- patch_uri a ctx q ;;
      Ok (set_first_packet 0 ctx', true, fx)
    else if negb (buffer_queue_len q =? 0) then
      Ok (ctx, true, [c2_transport_ingress_queue q])
    else Ok (ctx, false, [])
  else Ok (ctx, false, []).

(** Lines 82-90 of [http_poll_cb]. *)
Definition backoff (got_command : bool) (ctx : http_ctx) : http_ctx :=
  if got_command then set_repeat Double.d0_01 ctx
  else if Double.ltb (repeat ctx) Double.d0_1 then
    set_repeat Double.d0_1 ctx
  else if Double.ltb (repeat ctx) Double.d5_0 then
    set_repeat (Double.add (repeat ctx) Double.d0_1) ctx
  else ctx.

Definition http_poll_cb (a : allocator) (conn : http_conn) (ctx : http_ctx)
  : outcome (http_ctx * list effect) :=
  let report := if 0 <? http_conn_response_code conn
                then c2_transport_reachable
                else c2_transport_unreachable in
  '(ctx1, got_command, fx) <- detect_command a conn ctx ;;
  Ok (set_in_flight 0 (backoff got_command ctx1), report :: fx).

Definition http_poll_timer_cb (ctx : http_ctx)
  : outcome (http_ctx * list effect) :=
  '(ctx1, fx) <-
    (if in_flight ctx =? 0 then
       let ctx := set_in_flight 1 ctx in
       match egress ctx with
       | None => Fault NullDeref                 (* buffer_queue_len(NULL) *)
       | Some q =>
           if 0 <? buffer_queue_len q then
             let ctx := set_data (Some q) (buffer_queue_len q)
                                 (set_egress (Some []) ctx) in
             let r := mk_req (uri ctx) http_request_post
                             (content ctx) (content_len ctx) in
             Ok (set_data None 0 ctx, [http_request r])
           else
             let r := mk_req (uri ctx) http_request_get
                             (content ctx) (content_len ctx) in
             Ok (ctx, [http_request r])
       end
     else Ok (ctx, [])) ;;
  Ok (ctx1,
      fx ++ if negb (running ctx1 =? 0)
            then [ev_timer_again (repeat ctx1)] else []).

(** [http_ctx_free], on a possibly null context. *)
Definition http_ctx_free (ctx : option http_ctx) : list effect :=
  match ctx with
  | None => []
  | Some c =>
      (match egress c with
       | Some q => [buffer_queue_free (Some q)]
       | None => []
       end) ++ [free_uri (uri c); free_ctx]
  end.

(** Which of the three allocations of [http_transport_init] succeed. *)
Record init_alloc : Type := mk_init_alloc {
  calloc_ok : bool;
  strdup_ok : bool;
  buffer_queue_new_ok : bool
}.

(** [http_transport_init]: the return value, the context handed to
    [c2_transport_set_ctx] (if any) and the calls made.  The '|' is
    overwritten in place, so the argument text stays in the allocation,
    behind the terminator of the endpoint; it is recorded as [strdup]
    left it.  The search for a [--ua] argument only selects a header
    and is left out. *)
Definition http_transport_init (m : init_alloc) (transport_uri : string)
  : Z * option http_ctx * list effect :=
  if negb (calloc_ok m) then (-1, None, [])
  else
    let ctx := mk_ctx None None Double.zero None 0 None 0 0 0 in
    if negb (strdup_ok m) then (-1, None, http_ctx_free (Some ctx))
    else
      let u := match strchr transport_uri "|" with
               | Some p => take p transport_uri
               | None => transport_uri
               end in
      let tl := match strchr transport_uri "|" with
                | Some p => Some (drop (S p) transport_uri)
                | None => None
                end in
      let ctx := set_first_packet 1 (set_uri_buffer (Some u) tl ctx) in
      if negb (buffer_queue_new_ok m) then (-1, None, http_ctx_free (Some ctx))
      else
        let ctx := set_egress (Some []) ctx in
        (0, Some ctx, []).

Definition http_transport_start (ctx : http_ctx) : http_ctx * list effect :=
  let ctx := set_repeat Double.d0_01 (set_running 1 ctx) in
  (ctx, [ev_timer_again (repeat ctx)]).

(** [buffer_queue_move_all(ctx->egress, egress)]: the caller's bytes go
    to the tail of the outbound queue. *)
Definition http_transport_egress (data : bytes) (ctx : http_ctx)
  : outcome http_ctx :=
  match egress ctx with
  | None => Fault NullDeref
  | Some q => Ok (set_egress (Some (q ++ data)) ctx)
  end.

Definition http_transport_stop (ctx : http_ctx) : http_ctx :=
  if negb (running ctx =? 0) then set_running 0 ctx else ctx.

(** [http_transport_free]: the queue is released, the pointer in the
    context keeps its value. *)
Definition http_transport_free (ctx : http_ctx) : http_ctx * list effect :=
  (ctx, [buffer_queue_free (egress ctx)]).

(** ** The event loop around the callbacks

    Modelled from the spec: the timer and the HTTP client are
    collaborators.  The timer fires its callback once per arming and has
    to be armed again to fire again; the HTTP client delivers one
    completion per request it was handed, some time after the call.  The
    world keeps the context, whether the timer is armed, the requests
    handed to the client and not yet completed, every call made so far
    and every byte the framework passed to the egress hook. *)

Record world : Type := mk_world {
  ctx : http_ctx;
  timer_armed : bool;
  outstanding : list http_req;
  calls : list effect;
  appended : bytes
}.

Inductive event : Type :=
| Tick
| Complete (a : allocator) (conn : http_conn)
| Egress (data : bytes)
| Start
| Stop.

Definition is_timer_again (e : effect) : bool :=
  match e with
  | ev_timer_again _ => true
  | _ => false
  end.

(** The calls [fx] take effect: requests become outstanding, a rearm
    arms the timer, and everything is logged. *)
Definition absorb (c : http_ctx) (fx : list effect) (armed : bool)
  (out : list http_req) (w : world) : world :=
  mk_world c (armed || existsb is_timer_again fx) (out ++ requests fx)
           (calls w ++ fx) (appended w).

Definition step (w : world) (e : event) : outcome world :=
  match e with
  | Tick =>
      if timer_armed w then
        '(c, fx) <- http_poll_timer_cb (ctx w) ;;
        Ok (absorb c fx false (outstanding w) w)
      else Fault NotEnabled
  | Complete a conn =>
      match outstanding w with
      | [] => Fault NotEnabled
      | _ :: rest =>
          '(c, fx) <- http_poll_cb a conn (ctx w) ;;
          Ok (absorb c fx (timer_armed w) rest w)
      end
  | Egress data =>
      c <- http_transport_egress data (ctx w) ;;
      Ok (mk_world c (timer_armed w) (outstanding w) (calls w)
                   (appended w ++ data))
  | Start =>
      let '(c, fx) := http_transport_start (ctx w) in
      Ok (absorb c fx (timer_armed w) (outstanding w) w)
  | Stop =>
      Ok (mk_world (http_transport_stop (ctx w)) (timer_armed w)
                   (outstanding w) (calls w) (appended w))
  end.

Fixpoint run (w : world) (tr : list event) : outcome world :=
  match tr with
  | [] => Ok w
  | e :: tr' => w' <- step w e ;; run w' tr'
  end.

(** The world right after a successful [http_transport_init]. *)
Definition fresh (c : http_ctx) : world := mk_world c false [] [] [].

(** The teardown entry points, run in a given order on one context.
    [http_ctx_free] also releases the context itself; the model goes on
    reading it, so that the calls of a hook that runs later stay
    visible. *)
Inductive hook : Type := hook_transport_free | hook_ctx_free.

Fixpoint teardown (hs : list hook) (c : http_ctx) : list effect :=
  match hs with
  | [] => []
  | hook_transport_free :: hs' =>
      let '(c', fx) := http_transport_free c in
      fx ++ teardown hs' c'
  | hook_ctx_free :: hs' =>
      http_ctx_free (Some c) ++ teardown hs' c
  end.

Definition is_queue_free (e : effect) : bool :=
  match e with
  | buffer_queue_free (Some _) => true
  | _ => false
  end.

(** How many times a queue is handed to [buffer_queue_free]. *)
Definition queue_releases (fx : list effect) : nat :=
  List.length (filter is_queue_free fx).

(** [n] polls in a row, each completing with [conn]. *)
Fixpoint polls (a : allocator) (conn : http_conn) (n : nat) (c : http_ctx)
  : outcome http_ctx :=
  match n with
  | O => Ok c
  | S n' =>
      '(c', _) <- http_poll_cb a conn c ;;
      polls a conn n' c'
  end.

End Transport.

(** The ramp of the backoff read over the rationals: the spec's words
    "if below 0.1 jump to 0.1, else if below 5.0 add 0.1, else stay",
    with exact arithmetic in place of [double]. *)
Definition ramp_exact (x : Q) : Q :=
  if Qlt_le_dec x (1 # 10) then 1 # 10
  else if Qlt_le_dec x 5 then x + (1 # 10)
  else x.

Fixpoint ramp_exact_iter (n : nat) (x : Q) : Q :=
  match n with
  | O => x
  | S n' => ramp_exact (ramp_exact_iter n' x)
  end.

(** ** Notions used in the statements *)

(** The offset in [s] of its [(n+1)]-th slash. *)
Fixpoint seek (n : nat) (s : string) {struct n} : option nat :=
  match CString.strchr s "/" with
  | None => None
  | Some i =>
      match n with
      | O => Some i
      | S n' => option_map (Nat.add (S i)) (seek n' (CString.drop (S i) s))
      end
  end.

(** A packet that asks for the rewrite, a decoder that answers every
    body with the same result, and the context a successful
    initialisation leaves behind. *)
Definition patch_frame (new_path : string) : tlv_packet :=
  [(TLV_TYPE_METHOD, "core_patch_url"%string); (TLV_TYPE_TRANS_URL, new_path)].

Definition always (p : option tlv_packet) : bytes -> option tlv_packet :=
  fun _ => p.

Definition booted (u : string) : http_ctx :=
  mk_ctx (Some u) None Double.zero None 0 (Some []) 1 0 0.

(** The reachability report of a completion. *)
Definition report_of (conn : http_conn) : effect :=
  if 0 <? http_conn_response_code conn
  then c2_transport_reachable else c2_transport_unreachable.

(** Calls that neither hand a request to the HTTP client nor arm the timer. *)
Definition quiet (fx : list effect) : Prop :=
  requests fx = [] /\ existsb is_timer_again fx = false.

(** The rearm at the end of a tick. *)
Definition rearm (c : http_ctx) : list effect :=
  if negb (running c =? 0) then [ev_timer_again (repeat c)] else [].

(** The bodies of all requests issued so far, in order of issue. *)
Definition sent (w : world) : bytes :=
  List.concat (map req_body (requests (calls w))).

(** A context produced by a successful [http_transport_init]. *)
Definition initialised (c : http_ctx) : Prop :=
  exists m u fx, http_transport_init m u = (0, Some c, fx).

(** The queue exists, the request data buffer is reset between
    callbacks, [in_flight] counts the outstanding requests, of which
    there is at most one, and the bytes sent followed by the bytes
    still queued are the bytes appended. *)
Record sound (w : world) : Prop := mk_sound {
  sound_data : content (ctx w) = None;
  sound_count : (List.length (outstanding w) <= 1)%nat;
  sound_flight : in_flight (ctx w) = Z.of_nat (List.length (outstanding w));
  sound_bytes : exists q, egress (ctx w) = Some q /\ sent w ++ q = appended w
}.

(** The number of requests issued so far, and of ticks yet to fire. *)
Definition issued (w : world) : nat := List.length (requests (calls w)).

Definition armed_ticks (w : world) : nat := if timer_armed w then 1 else 0.

(** [f] applied to the context a callback returns. *)
Definition map_ctx (f : http_ctx -> http_ctx)
  (r : outcome (http_ctx * list effect)) : outcome (http_ctx * list effect) :=
  match r with
  | Ok (c, fx) => Ok (f c, fx)
  | Fault x => Fault x
  end.

(** Two bytes of payload. *)
Definition hello : bytes := [Byte.x68; Byte.x69].

(** Start, a first poll, bytes queued while it is outstanding, a tick
    during the request, the handshake response, and the tick that
    posts the queue. *)
Definition session : list event :=
  [Start; Tick; Egress hello; Tick;
   Complete alloc_ok (mk_conn 200 []); Tick].

(** The requests issued by a run, if it runs to its end. *)
Definition requests_of_run (decode : bytes -> option tlv_packet)
  (w : world) (tr : list event) : option (list http_req) :=
  match run decode w tr with
  | Ok w' => Some (requests (calls w'))
  | Fault _ => None
  end.

(** The context right after [http_transport_start]. *)
Definition started (u : string) : http_ctx :=
  fst (http_transport_start (booted u)).

(** ** The User-Agent argument of [http_transport_init] (lines 145-158) *)

Definition default_ua : string :=
  "Mozilla/5.0 (Windows NT 6.1; Trident/7.0; rv:11.0) like Gecko".

(** The loop over [argv]: [if (strcmp(argv[i], "--ua") == 0 && argv[i + 1])
    ua = argv[i + 1]].  The vector is the list of its [argc] tokens; the
    slot after the last token is null, which the test of [argv[i + 1]]
    relies on. *)
Fixpoint select_ua (ua : string) (argv : list string) : string :=
  match argv with
  | [] => ua
  | a :: rest =>
      select_ua (if CString.strcmp a "--ua" =? 0
                 then match rest with
                      | v :: _ => v
                      | [] => ua
                      end
                 else ua) rest
  end.

(** The value of [ua] when the header is printed.  Modelled from the
    spec: [argv_split], which cuts the argument string into tokens, is a
    collaborator and is taken as a parameter. *)
Definition init_user_agent (argv_split : string -> list string)
  (transport_uri : string) : string :=
  match CString.strchr transport_uri "|" with
  | None => default_ua
  | Some p =>
      let args := CString.drop (S p) transport_uri in
      if negb (Nat.eqb (String.length args) 0)
      then select_ua default_ua (argv_split args)
      else default_ua
  end.

(** ** Further notions used in the statements *)

Definition is_report (e : effect) : bool :=
  match e with
  | c2_transport_reachable | c2_transport_unreachable => true
  | _ => false
  end.

(** The byte queues handed to the framework, oldest first. *)
Fixpoint ingress_calls (fx : list effect) : list bytes :=
  match fx with
  | [] => []
  | c2_transport_ingress_queue q :: fx' => q :: ingress_calls fx'
  | _ :: fx' => ingress_calls fx'
  end.

Definition is_ctx_free (e : effect) : bool :=
  match e with
  | free_ctx => true
  | _ => false
  end.

(** A GET carries no body; a POST carries a non-empty body and its
    length. *)
Definition wf_request (r : http_req) : Prop :=
  match req_method r with
  | http_request_get => req_content r = None /\ req_content_len r = 0
  | http_request_post =>
      exists b, req_content r = Some b /\ b <> []
                /\ req_content_len r = buffer_queue_len b
  end.

(** The interval a completion leaves, as a function of the interval it
    finds and of [got_command]. *)
Definition interval_after (got_command : bool) (x : spec_float) : spec_float :=
  if got_command then Double.d0_01
  else if Double.ltb x Double.d0_1 then Double.d0_1
  else if Double.ltb x Double.d5_0 then Double.add x Double.d0_1
  else x.

(** [x], then the intervals of [n - 1] idle polls in a row. *)
Fixpoint idle_ramp (n : nat) (x : spec_float) : list spec_float :=
  match n with
  | O => []
  | S n' => x :: idle_ramp n' (interval_after false x)
  end.

(** The intervals of a started transport: 0.01 and the 51 values of the
    idle ramp above it. *)
Definition ramp_intervals : list spec_float := idle_ramp 52 Double.d0_01.

(** The interval the ramp ends in, 5.099999999999998. *)
Definition ramp_top : spec_float := S754_finite false 5742089524897380 (-50).

Definition sf_eqb (x y : spec_float) : bool :=
  match x, y with
  | S754_zero a, S754_zero b => Bool.eqb a b
  | S754_infinity a, S754_infinity b => Bool.eqb a b
  | S754_nan, S754_nan => true
  | S754_finite a m e, S754_finite b n f =>
      Bool.eqb a b && Pos.eqb m n && Z.eqb e f
  | _, _ => false
  end.

Definition mem_sf (x : spec_float) (l : list spec_float) : bool :=
  existsb (sf_eqb x) l.

(** * Properties *)

(** ** String surgery *)

Section StringFacts.

Import CString.
Local Open Scope string_scope.
Local Open Scope nat_scope.

Lemma drop_app_length (a d : string) : drop (String.length a) (a ++ d) = d.
Proof. induction a as [|x a IH]; simpl; auto. Qed.

Lemma take_app_length (a d : string) : take (String.length a) (a ++ d) = a.
Proof. induction a as [|x a IH]; simpl; congruence. Qed.

Lemma drop_drop (m n : nat) (s : string) : drop n (drop m s) = drop (m + n) s.
Proof.
  revert s; induction m as [|m IH]; intros s; simpl; auto.
  destruct s as [|x s]; auto.
  destruct n; reflexivity.
Qed.

Lemma string_length_app (a b : string) :
  String.length (a ++ b) = String.length a + String.length b.
Proof. induction a as [|x a IH]; simpl; auto. Qed.

Lemma app_assoc_str (a b c : string) : (a ++ b) ++ c = a ++ (b ++ c).
Proof. induction a as [|x a IH]; simpl; congruence. Qed.

Lemma strchr_app_hit (c : ascii) (a d : string) :
  count c a = 0 -> strchr (a ++ String c d) c = Some (String.length a).
Proof.
  induction a as [|x a IH]; simpl.
  - intros _. now rewrite Ascii.eqb_refl.
  - destruct (Ascii.eqb x c); [discriminate|].
    intros H. now rewrite (IH H).
Qed.

Lemma strchr_some_count (c : ascii) (s : string) (i : nat) :
  strchr s c = Some i ->
  i < String.length s /\ count c s = S (count c (drop (S i) s)).
Proof.
  revert i; induction s as [|x s IH]; simpl; intros i H; [discriminate|].
  destruct (Ascii.eqb x c).
  - injection H as <-. split; [lia|reflexivity].
  - destruct (strchr s c) as [j|]; [|discriminate].
    injection H as <-. destruct (IH j eq_refl) as [Hlt Hc].
    split; [lia|exact Hc].
Qed.

Lemma find_split_null (buf : string) (tail : option string) (n : nat) :
  find_split buf tail n None = Ok None.
Proof. destruct n; reflexivity. Qed.

Lemma length_drop (n : nat) (s : string) :
  String.length (drop n s) = String.length s - n.
Proof.
  revert s; induction n as [|n IH]; intros s; simpl; [lia|].
  destruct s as [|x s]; simpl; auto.
Qed.

(** The loop of [patch_uri] started at offset [p] finds the slashes of
    the buffer that come after offset [p]. *)
Lemma find_split_seek (n : nat) (buf : string) (tail : option string)
  (p : nat) :
  S p <= String.length buf ->
  find_split buf tail (S n) (Some p)
  = Ok (option_map (Nat.add (S p)) (seek n (drop (S p) buf))).
Proof.
  revert p; induction n as [|n IH]; intros p Hp.
  - cbn [find_split]. unfold strchr_at.
    apply Nat.leb_le in Hp. rewrite Hp. cbn [bind seek].
    destruct (strchr (drop (S p) buf) "/"); reflexivity.
  - change (find_split buf tail (S (S n)) (Some p))
      with (split' <- strchr_at buf tail (S p) "/" ;;
            find_split buf tail (S n) split').
    unfold strchr_at. pose proof Hp as Hp'.
    apply Nat.leb_le in Hp'. rewrite Hp'. cbn [bind seek].
    destruct (strchr (drop (S p) buf) "/") as [i|] eqn:E; cbn [option_map].
    + apply strchr_some_count in E. destruct E as [Hi _].
      rewrite length_drop in Hi.
      rewrite IH by lia.
      replace (S (S p + i)) with (S p + S i) by lia.
      rewrite <- drop_drop.
      destruct (seek n (drop (S i) (drop (S p) buf))) as [j|]; cbn [option_map];
        [|reflexivity].
      do 2 f_equal. lia.
    + apply find_split_null.
Qed.

(** A slash that [seek] finds lies inside the string. *)
Lemma seek_lt (n : nat) (s : string) (i : nat) :
  seek n s = Some i -> i < String.length s.
Proof.
  revert s i; induction n as [|n IH]; intros s i; cbn [seek];
    destruct (strchr s "/") as [k|] eqn:E; try discriminate;
    apply strchr_some_count in E; destruct E as [Hk _].
  - intros H; injection H as <-. exact Hk.
  - destruct (seek n (drop (S k) s)) as [j|] eqn:Ej; [|discriminate].
    cbn [option_map]. intros H; injection H as <-.
    apply IH in Ej. rewrite length_drop in Ej. lia.
Qed.

Lemma seek_miss (n : nat) (s : string) : count "/" s < S n -> seek n s = None.
Proof.
  revert s; induction n as [|n IH]; intros s H; cbn [seek];
    destruct (strchr s "/") as [i|] eqn:E; auto;
    apply strchr_some_count in E; destruct E as [_ E].
  - lia.
  - rewrite IH by lia. reflexivity.
Qed.

Lemma drop_past_hit (a : string) (x : ascii) (d : string) :
  drop (S (String.length a)) (a ++ String x d) = d.
Proof. induction a as [|y a IH]; simpl; auto. Qed.

Lemma seek_third (a b c d : string) :
  count "/" a = 0 -> count "/" b = 0 -> count "/" c = 0 ->
  seek 2 (a ++ "/" ++ b ++ "/" ++ c ++ "/" ++ d)
  = Some (String.length (a ++ "/" ++ b ++ "/" ++ c)).
Proof.
  intros Ha Hb Hc.
  cbn [seek append].
  rewrite (strchr_app_hit "/" a _ Ha), drop_past_hit.
  rewrite (strchr_app_hit "/" b _ Hb), drop_past_hit.
  rewrite (strchr_app_hit "/" c _ Hc).
  cbn [option_map]. f_equal.
  rewrite !string_length_app. cbn [String.length]. rewrite !string_length_app.
  cbn [String.length]. lia.
Qed.

Lemma string_compare_refl (a : string) : String.compare a a = Eq.
Proof.
  induction a as [|x a IH]; simpl; auto.
  unfold Ascii.compare. now rewrite N.compare_refl.
Qed.

Lemma strcmp_eq0 (a b : string) : (strcmp a b =? 0)%Z = true <-> a = b.
Proof.
  unfold strcmp. split.
  - destruct (String.compare a b) eqn:E; try discriminate.
    intros _. now apply String.compare_eq_iff.
  - intros ->. now rewrite string_compare_refl.
Qed.

End StringFacts.

(** ** The first-contact handshake *)

Lemma init_booted (u : string) :
  CString.strchr u "|" = None ->
  http_transport_init (mk_init_alloc true true true) u = (0, Some (booted u), []).
Proof. intros H. unfold http_transport_init. cbn. now rewrite H. Qed.

Section Handshake.

Import CString.
Local Open Scope string_scope.

Variable decode : bytes -> option tlv_packet.

(** What [patch_uri] computes once the frame matches: the buffer is cut
    at its third slash past the first character, if there is one, and
    [asprintf] decides the rest. *)
Lemma patch_uri_match (a : allocator) (ctx : http_ctx) (q : bytes)
  (request : tlv_packet) (c0 : ascii) (rest nu : string) :
  decode q = Some request ->
  tlv_packet_get_str request TLV_TYPE_METHOD = Some "core_patch_url" ->
  tlv_packet_get_str request TLV_TYPE_TRANS_URL = Some nu ->
  uri ctx = Some (String c0 rest) ->
  patch_uri decode a ctx q
  = let buf' := match seek 2 rest with
                | Some i => String c0 (take i rest)
                | None => String c0 rest
                end in
    let tail' := match seek 2 rest with
                 | Some i => Some (drop (S i) rest)
                 | None => uri_tail ctx
                 end in
    Ok (set_uri_buffer (snd (asprintf a (Some buf') buf' nu))
                       (tail_left a tail') ctx,
        if (0 <? fst (asprintf a (Some buf') buf' nu))%Z
        then [free_uri (Some buf')] else []).
Proof.
  intros Hq Hm Hn Hu. unfold patch_uri. rewrite Hq, Hm, Hn, Hu.
  change (strcmp "core_patch_url" "core_patch_url" =? 0)%Z with true.
  cbv iota.
  rewrite (find_split_seek 2 (String c0 rest) (uri_tail ctx) 0)
    by (simpl; lia).
  cbn [drop bind option_map].
  destruct (seek 2 rest) as [i|] eqn:E; cbn [option_map Nat.add cut].
  - apply seek_lt in E.
    assert (L : (S i <? String.length (String c0 rest))%nat = true)
      by (apply Nat.ltb_lt; simpl; lia).
    rewrite L. cbn [fst snd take drop].
    destruct (asprintf a _ _ nu); reflexivity.
  - cbn [fst snd]. destruct (asprintf a _ _ nu); reflexivity.
Qed.

(** C1, amended.  When the frame is a patch-url frame with a new path
    and the allocation succeeds: an endpoint with at least three slashes
    after its first character becomes its prefix up to (excluding) the
    third of them followed by the new path; an endpoint with fewer such
    slashes is kept whole and the new path is appended to it. *)
Theorem patch_uri_rewrite (ctx : http_ctx) (q : bytes) (request : tlv_packet)
  (c0 : ascii) (rest nu : string) :
  decode q = Some request ->
  tlv_packet_get_str request TLV_TYPE_METHOD = Some "core_patch_url" ->
  tlv_packet_get_str request TLV_TYPE_TRANS_URL = Some nu ->
  uri ctx = Some (String c0 rest) ->
  (forall a b c d : string,
      rest = a ++ "/" ++ b ++ "/" ++ c ++ "/" ++ d ->
      count "/" a = O -> count "/" b = O -> count "/" c = O ->
      let kept := String c0 (a ++ "/" ++ b ++ "/" ++ c) in
      patch_uri decode alloc_ok ctx q
      = Ok (set_uri (Some (kept ++ nu)) ctx, [free_uri (Some kept)]))
  /\ ((count "/" rest < 3)%nat ->
      patch_uri decode alloc_ok ctx q
      = Ok (set_uri (Some (String c0 rest ++ nu)) ctx,
            [free_uri (Some (String c0 rest))])).
Proof.
  intros Hq Hm Hn Hu. split.
  - intros a b c d -> Ha Hb Hc kept.
    rewrite (patch_uri_match alloc_ok ctx q request c0 _ nu Hq Hm Hn Hu).
    rewrite (seek_third a b c d Ha Hb Hc).
    replace (a ++ "/" ++ b ++ "/" ++ c ++ "/" ++ d)
      with ((a ++ "/" ++ b ++ "/" ++ c) ++ "/" ++ d)
      by (now rewrite !app_assoc_str).
    rewrite take_app_length. reflexivity.
  - intros Hlt.
    rewrite (patch_uri_match alloc_ok ctx q request c0 _ nu Hq Hm Hn Hu).
    rewrite (seek_miss 2 rest Hlt). reflexivity.
Qed.

(** The rewrite is skipped, without any call, when the body does not
    decode. *)
Lemma patch_uri_no_frame (a : allocator) (ctx : http_ctx) (q : bytes) :
  decode q = None -> patch_uri decode a ctx q = Ok (ctx, []).
Proof. intros H. unfold patch_uri. now rewrite H. Qed.

(** The rewrite is skipped when the frame names another command or
    carries no new path. *)
Lemma patch_uri_no_match (a : allocator) (ctx : http_ctx) (q : bytes)
  (request : tlv_packet) (m : string) :
  decode q = Some request ->
  tlv_packet_get_str request TLV_TYPE_METHOD = Some m ->
  m <> "core_patch_url"
  \/ tlv_packet_get_str request TLV_TYPE_TRANS_URL = None ->
  patch_uri decode a ctx q = Ok (ctx, []).
Proof.
  intros Hq Hm H. unfold patch_uri. rewrite Hq, Hm.
  destruct (strcmp m "core_patch_url" =? 0)%Z eqn:E.
  - apply strcmp_eq0 in E. destruct H as [H|H]; [contradiction|].
    now rewrite H.
  - destruct (tlv_packet_get_str request TLV_TYPE_TRANS_URL); reflexivity.
Qed.

(** A frame without a method value makes [patch_uri] hand a null
    pointer to [strcmp]. *)
Lemma patch_uri_no_method (a : allocator) (ctx : http_ctx) (q : bytes)
  (request : tlv_packet) :
  decode q = Some request ->
  tlv_packet_get_str request TLV_TYPE_METHOD = None ->
  patch_uri decode a ctx q = Fault NullDeref.
Proof. intros Hq Hm. unfold patch_uri. now rewrite Hq, Hm. Qed.

End Handshake.

(** C1, as stated, fails: an endpoint with fewer than three slashes is
    not left unchanged by a matching frame, the new path is appended;
    and a slash in the very first position is not counted, the search
    starting at the second character. *)
Lemma patch_uri_short_endpoint_changes :
  ((CString.count "/" "https://host" < 3)%nat
   /\ patch_uri (always (Some (patch_frame "/v2/x"))) alloc_ok
                (booted "https://host") []
      = Ok (set_uri (Some "https://host/v2/x"%string) (booted "https://host"),
            [free_uri (Some "https://host"%string)])
   /\ uri (set_uri (Some "https://host/v2/x"%string) (booted "https://host"))
      <> uri (booted "https://host"))
  /\ (CString.count "/" "/a/b/c" = 3%nat
      /\ patch_uri (always (Some (patch_frame "/v2/x"))) alloc_ok
                   (booted "/a/b/c") []
         = Ok (set_uri (Some "/a/b/c/v2/x"%string) (booted "/a/b/c"),
               [free_uri (Some "/a/b/c"%string)])
      /\ "/a/b/c/v2/x"%string <> "/a/b/v2/x"%string).
Proof.
  split; (split; [cbn; lia|]); (split; [reflexivity|]); cbn; discriminate.
Qed.

Lemma patch_uri_rewrite_witness :
  patch_uri (always (Some (patch_frame "/v2/x"))) alloc_ok
            (booted "https://host/old/path") []
  = Ok (set_uri (Some "https://host/v2/x"%string)
                (booted "https://host/old/path"),
        [free_uri (Some "https://host"%string)])
  /\ patch_uri (always (Some (patch_frame "/v2/x"))) alloc_ok
               (booted "https://host") []
     = Ok (set_uri (Some "https://host/v2/x"%string) (booted "https://host"),
           [free_uri (Some "https://host"%string)]).
Proof.
  split.
  - apply (proj1 (patch_uri_rewrite (always (Some (patch_frame "/v2/x")))
                    (booted "https://host/old/path") [] (patch_frame "/v2/x")
                    "h" "ttps://host/old/path" "/v2/x"
                    eq_refl eq_refl eq_refl eq_refl)
             "ttps:"%string ""%string "host"%string "old/path"%string);
      reflexivity.
  - apply (proj2 (patch_uri_rewrite (always (Some (patch_frame "/v2/x")))
                    (booted "https://host") [] (patch_frame "/v2/x")
                    "h" "ttps://host" "/v2/x"
                    eq_refl eq_refl eq_refl eq_refl)).
    cbn. lia.
Defined.

(** C2 fails on the code.  With the endpoint [https://host/old/path]
    and a matching frame, a failed allocation leaves the endpoint cut at
    its third slash, the old path lying behind the new terminator (or
    null, with a C library that clears the pointer): the old value is
    not retained. *)
Theorem patch_uri_alloc_failure_truncates (e : strp_effect) :
  patch_uri (always (Some (patch_frame "/v2/x"))) (alloc_fail e)
            (booted "https://host/old/path") []
  = Ok (set_uri_buffer
          (match e with
           | strp_untouched => Some "https://host"%string
           | strp_null => None
           end)
          (match e with
           | strp_untouched => Some "old/path"%string
           | strp_null => None
           end) (booted "https://host/old/path"), [])
  /\ (match e with
      | strp_untouched => Some "https://host"%string
      | strp_null => None
      end) <> uri (booted "https://host/old/path").
Proof. destruct e; (split; [reflexivity|cbn; discriminate]). Qed.

(** C4 fails on the code.  A first 200 response whose body decodes to a
    frame with a new path but no method value crashes the handler: the
    null method is passed to [strcmp]. *)
Theorem handshake_frame_without_method_crashes (a : allocator) (body : bytes) :
  tlv_packet_get_str [(TLV_TYPE_TRANS_URL, "/v2/x"%string)] TLV_TYPE_METHOD = None
  /\ patch_uri (always (Some [(TLV_TYPE_TRANS_URL, "/v2/x"%string)])) a
               (booted "https://host/old/path") body
     = Fault NullDeref
  /\ http_poll_cb (always (Some [(TLV_TYPE_TRANS_URL, "/v2/x"%string)])) a
                  (mk_conn 200 body) (booted "https://host/old/path")
     = Fault NullDeref.
Proof. repeat split. Qed.

(** ** The completion callback *)

Section Completion.

Variable decode : bytes -> option tlv_packet.

Lemma quiet_nil : quiet [].
Proof. split; reflexivity. Qed.

(** [patch_uri] writes nothing but the endpoint buffer. *)
Lemma patch_uri_shape (a : allocator) (c c' : http_ctx) (q : bytes)
  (fx : list effect) :
  patch_uri decode a c q = Ok (c', fx) ->
  c' = set_uri_buffer (uri c') (uri_tail c') c /\ quiet fx.
Proof.
  unfold patch_uri.
  destruct (decode q) as [request|].
  2:{ intros H; injection H as <- <-. destruct c; split; [reflexivity|apply quiet_nil]. }
  destruct (tlv_packet_get_str request TLV_TYPE_METHOD) as [m|]; [|discriminate].
  destruct (CString.strcmp m "core_patch_url" =? 0),
           (tlv_packet_get_str request TLV_TYPE_TRANS_URL) as [nu|];
    try (intros H; injection H as <- <-; destruct c; split;
         [reflexivity|apply quiet_nil]).
  destruct (uri c) as [buf|]; [|discriminate].
  destruct (find_split buf (uri_tail c) 3 (Some O)) as [split|]; [|discriminate].
  cbn [bind]. destruct (asprintf a _ _ nu) as [n strp].
  intros H; injection H as <- <-. split; [destruct c; reflexivity|].
  destruct (0 <? n); split; reflexivity.
Qed.

Lemma backoff_shape (g : bool) (c : http_ctx) :
  backoff g c = set_repeat (repeat (backoff g c)) c.
Proof.
  unfold backoff. destruct g; [reflexivity|].
  destruct (Double.ltb (repeat c) Double.d0_1); [reflexivity|].
  destruct (Double.ltb (repeat c) Double.d5_0); [reflexivity|].
  destruct c; reflexivity.
Qed.

Lemma settle_fields (g : bool) (c : http_ctx) :
  egress (set_in_flight 0 (backoff g c)) = egress c
  /\ content (set_in_flight 0 (backoff g c)) = content c
  /\ content_len (set_in_flight 0 (backoff g c)) = content_len c
  /\ running (set_in_flight 0 (backoff g c)) = running c
  /\ in_flight (set_in_flight 0 (backoff g c)) = 0
  /\ first_packet (set_in_flight 0 (backoff g c)) = first_packet c
  /\ uri (set_in_flight 0 (backoff g c)) = uri c.
Proof. rewrite backoff_shape. cbn. tauto. Qed.

Lemma http_poll_cb_unfold (a : allocator) (conn : http_conn)
  (c c' : http_ctx) (fx : list effect) :
  http_poll_cb decode a conn c = Ok (c', fx) ->
  exists c1 g fx1,
    detect_command decode a conn c = Ok (c1, g, fx1)
    /\ c' = set_in_flight 0 (backoff g c1)
    /\ fx = report_of conn :: fx1.
Proof.
  unfold http_poll_cb.
  destruct (detect_command decode a conn c) as [[[c1 g] fx1]|]; [|discriminate].
  cbn [bind]. intros H. injection H as H1 H2.
  exists c1, g, fx1. repeat split; symmetry; assumption.
Qed.

Lemma detect_command_shape (a : allocator) (conn : http_conn)
  (c c1 : http_ctx) (g : bool) (fx1 : list effect) :
  detect_command decode a conn c = Ok (c1, g, fx1) ->
  egress c1 = egress c /\ content c1 = content c
  /\ content_len c1 = content_len c /\ running c1 = running c
  /\ repeat c1 = repeat c
  /\ first_packet c1
     = (if http_conn_response_code conn =? 200 then 0 else first_packet c)
  /\ quiet fx1.
Proof.
  unfold detect_command.
  destruct (http_conn_response_code conn =? 200).
  - destruct (first_packet c =? 0) eqn:Ef; cbn [negb].
    + apply Z.eqb_eq in Ef.
      destruct (buffer_queue_len (http_conn_response_queue conn) =? 0);
        cbn [negb]; intros H; injection H as <- _ <-;
        repeat split; auto.
    + destruct (patch_uri decode a c (http_conn_response_queue conn))
        as [[c2 fx2]|] eqn:P; [|discriminate].
      cbn [bind]. intros H; injection H as <- _ <-.
      apply patch_uri_shape in P. destruct P as [P Q].
      rewrite P. cbn. repeat split; auto; apply Q.
  - intros H; injection H as <- _ <-. repeat split; auto.
Qed.

(** What a completion that returns leaves behind: only [uri],
    [repeat], [first_packet] and [in_flight] can have changed, the
    first call is the reachability report, no request is issued and no
    timer is armed. *)
Lemma http_poll_cb_shape (a : allocator) (conn : http_conn)
  (c c' : http_ctx) (fx : list effect) :
  http_poll_cb decode a conn c = Ok (c', fx) ->
  egress c' = egress c /\ content c' = content c
  /\ content_len c' = content_len c /\ running c' = running c
  /\ in_flight c' = 0
  /\ first_packet c'
     = (if http_conn_response_code conn =? 200 then 0 else first_packet c)
  /\ (exists rest, fx = report_of conn :: rest)
  /\ quiet fx.
Proof.
  intros H. apply http_poll_cb_unfold in H.
  destruct H as (c1 & g & fx1 & D & -> & ->).
  apply detect_command_shape in D.
  destruct D as (E1 & E2 & E3 & E4 & _ & E6 & Q1 & Q2).
  destruct (settle_fields g c1) as (F1 & F2 & F3 & F4 & F5 & F6 & _).
  rewrite F1, F2, F3, F4, F5, F6.
  repeat split; eauto.
  - unfold report_of. destruct (0 <? _); exact Q1.
  - unfold report_of. destruct (0 <? _); exact Q2.
Qed.

(** A completion returns unless it runs [patch_uri] into a fault: at
    every response after the handshake, and at every response other
    than 200. *)
Lemma http_poll_cb_returns (a : allocator) (conn : http_conn) (c : http_ctx) :
  first_packet c = 0 \/ http_conn_response_code conn <> 200 ->
  exists c' fx, http_poll_cb decode a conn c = Ok (c', fx).
Proof.
  intros H. unfold http_poll_cb, detect_command.
  destruct (http_conn_response_code conn =? 200) eqn:E200.
  - destruct H as [H|H]; [|apply Z.eqb_eq in E200; contradiction].
    rewrite H. cbn [Z.eqb negb].
    destruct (negb _); cbn [bind]; eauto.
  - cbn [bind]; eauto.
Qed.

(** C7.  Whenever the completion callback sets [got_command] (which it
    does exactly at a 200 response that is the first one or has a
    non-empty body), it leaves the poll interval at exactly 0.01,
    whatever the interval was. *)
Theorem fast_reset (a : allocator) (conn : http_conn) (c : http_ctx) :
  (forall c1 got fx,
      detect_command decode a conn c = Ok (c1, got, fx) ->
      (got = true <->
       http_conn_response_code conn = 200
       /\ (first_packet c <> 0 \/ http_conn_response_queue conn <> [])))
  /\ (forall c1 fx,
         detect_command decode a conn c = Ok (c1, true, fx) ->
         exists c',
           http_poll_cb decode a conn c = Ok (c', report_of conn :: fx)
           /\ repeat c' = Double.d0_01).
Proof.
  split.
  - intros c1 got fx. unfold detect_command.
    destruct (http_conn_response_code conn =? 200) eqn:E200.
    + apply Z.eqb_eq in E200.
      destruct (first_packet c =? 0) eqn:Ef; cbn [negb].
      * apply Z.eqb_eq in Ef.
        unfold buffer_queue_len.
        destruct (http_conn_response_queue conn) as [|b q]; cbn;
          intros H; injection H as _ <- _; split; try discriminate; auto.
        -- intros [_ [H|H]]; contradiction.
        -- intros _. split; [assumption|right; discriminate].
      * apply Z.eqb_neq in Ef.
        destruct (patch_uri decode a c _) as [[c2 fx2]|]; [|discriminate].
        cbn [bind]. intros H; injection H as _ <- _. tauto.
    + apply Z.eqb_neq in E200.
      intros H; injection H as _ <- _. split; [discriminate|tauto].
  - intros c1 fx H. unfold http_poll_cb. rewrite H. cbn [bind backoff].
    eexists. split; [reflexivity|]. reflexivity.
Qed.

(** After the handshake a 200 response is command data: [patch_uri] is
    not run (the result does not depend on the decoder or the
    allocator), the endpoint stays, and a non-empty body goes to the
    framework whole. *)
Lemma later_200_is_command_data (a : allocator) (q : bytes) (c : http_ctx) :
  first_packet c = 0 ->
  http_poll_cb decode a (mk_conn 200 q) c
  = Ok (set_in_flight 0 (backoff (negb (buffer_queue_len q =? 0)) c),
        c2_transport_reachable
          :: (if negb (buffer_queue_len q =? 0)
              then [c2_transport_ingress_queue q] else [])).
Proof.
  intros H. unfold http_poll_cb, detect_command. cbn. rewrite H. cbn.
  destruct (buffer_queue_len q =? 0); reflexivity.
Qed.

End Completion.

(** ** The scheduler *)

Lemma requests_app (l1 l2 : list effect) :
  requests (l1 ++ l2) = requests l1 ++ requests l2.
Proof.
  induction l1 as [|e l1 IH]; cbn [requests app]; auto.
  destruct (is_request e); cbn [app]; congruence.
Qed.

Lemma requests_rearm (c : http_ctx) : requests (rearm c) = [].
Proof. unfold rearm. destruct (negb _); reflexivity. Qed.

Lemma timer_again_rearm (c : http_ctx) :
  existsb is_timer_again (rearm c) = negb (running c =? 0).
Proof. unfold rearm. destruct (negb _); reflexivity. Qed.

(** A tick during an outstanding request. *)
Lemma tick_busy (c : http_ctx) :
  in_flight c <> 0 -> http_poll_timer_cb c = Ok (c, rearm c).
Proof.
  intros H. unfold http_poll_timer_cb.
  apply Z.eqb_neq in H. rewrite H. reflexivity.
Qed.

(** A tick that finds bytes queued. *)
Lemma tick_post (c : http_ctx) (q : bytes) :
  in_flight c = 0 -> egress c = Some q -> q <> [] ->
  http_poll_timer_cb c
  = Ok (set_data None 0 (set_egress (Some []) (set_in_flight 1 c)),
        http_request (mk_req (uri c) http_request_post
                             (Some q) (buffer_queue_len q)) :: rearm c).
Proof.
  intros Hf He Hq. unfold http_poll_timer_cb. rewrite Hf. cbn [Z.eqb].
  cbn [egress set_in_flight]. rewrite He.
  destruct q as [|b q]; [contradiction|].
  reflexivity.
Qed.

(** A tick that finds the queue empty. *)
Lemma tick_get (c : http_ctx) :
  in_flight c = 0 -> egress c = Some [] ->
  http_poll_timer_cb c
  = Ok (set_in_flight 1 c,
        http_request (mk_req (uri c) http_request_get
                             (content c) (content_len c)) :: rearm c).
Proof.
  intros Hf He. unfold http_poll_timer_cb. rewrite Hf. cbn [Z.eqb].
  cbn [egress set_in_flight]. rewrite He. reflexivity.
Qed.

(** What any tick that returns leaves behind. *)
Lemma tick_shape (c c' : http_ctx) (fx : list effect) :
  http_poll_timer_cb c = Ok (c', fx) ->
  running c' = running c /\ first_packet c' = first_packet c
  /\ (List.length (requests fx) <= 1)%nat
  /\ existsb is_timer_again fx = negb (running c =? 0).
Proof.
  destruct (Z.eq_dec (in_flight c) 0) as [Hf|Hf].
  - destruct (egress c) as [q|] eqn:He.
    + destruct q as [|b q].
      * rewrite (tick_get c Hf He). intros H; injection H as <- <-.
        cbn. rewrite requests_rearm, timer_again_rearm. cbn. auto.
      * rewrite (tick_post c (b :: q) Hf He) by discriminate.
        intros H; injection H as <- <-.
        cbn. rewrite requests_rearm, timer_again_rearm. cbn. auto.
    + unfold http_poll_timer_cb. rewrite Hf. cbn. rewrite He. discriminate.
  - rewrite (tick_busy c Hf). intros H; injection H as <- <-.
    rewrite requests_rearm, timer_again_rearm. cbn. auto.
Qed.

(** A tick returns whenever the context has its queue. *)
Lemma tick_returns (c : http_ctx) (q : bytes) :
  egress c = Some q -> exists c' fx, http_poll_timer_cb c = Ok (c', fx).
Proof.
  intros He. destruct (Z.eq_dec (in_flight c) 0) as [Hf|Hf].
  - destruct q as [|b q].
    + rewrite (tick_get c Hf He). eauto.
    + rewrite (tick_post c (b :: q) Hf He) by discriminate. eauto.
  - rewrite (tick_busy c Hf). eauto.
Qed.

(** ** Invariants of the event loop *)

Section Loop.

Variable decode : bytes -> option tlv_packet.

Lemma initialised_fields (c : http_ctx) :
  initialised c ->
  egress c = Some [] /\ content c = None /\ in_flight c = 0
  /\ first_packet c = 1 /\ running c = 0.
Proof.
  intros (m & u & fx & H). unfold http_transport_init in H.
  destruct (calloc_ok m); cbn [negb] in H; [|discriminate].
  destruct (strdup_ok m); cbn [negb] in H; [|discriminate].
  destruct (buffer_queue_new_ok m); cbn [negb] in H; [|discriminate].
  injection H as <- _. cbn. tauto.
Qed.

Lemma sent_absorb (c : http_ctx) (fx : list effect) (armed : bool)
  (out : list http_req) (w : world) :
  sent (absorb c fx armed out w)
  = sent w ++ List.concat (map req_body (requests fx)).
Proof.
  unfold sent, absorb. cbn [calls].
  now rewrite requests_app, map_app, concat_app.
Qed.

Lemma sound_fresh (c : http_ctx) : initialised c -> sound (fresh c).
Proof.
  intros H. apply initialised_fields in H.
  destruct H as (He & Hc & Hf & _).
  constructor; cbn; auto. exists []. auto.
Qed.

Lemma sound_absorb (w : world) (c : http_ctx) (fx : list effect)
  (armed : bool) (out : list http_req) :
  content c = None ->
  (List.length (out ++ requests fx) <= 1)%nat ->
  in_flight c = Z.of_nat (List.length (out ++ requests fx)) ->
  (exists q, egress c = Some q
             /\ (sent w ++ List.concat (map req_body (requests fx))) ++ q
                = appended w) ->
  sound (absorb c fx armed out w).
Proof.
  intros H1 H2 H3 (q & H4 & H5). constructor; try assumption.
  exists q. split; [exact H4|]. rewrite sent_absorb. exact H5.
Qed.

Lemma sound_step (w w' : world) (e : event) :
  sound w -> step decode w e = Ok w' -> sound w'.
Proof.
  intros [Hd Hn Hf (q & He & Hb)]. destruct e as [|a conn|data| |]; cbn [step].
  - (* Tick *)
    destruct (timer_armed w); [|discriminate].
    destruct (outstanding w) as [|r0 out] eqn:Eo.
    + cbn in Hf. destruct q as [|b q].
      * rewrite (tick_get _ Hf He). cbn [bind]. intros H; injection H as <-.
        apply sound_absorb; cbn [requests is_request app];
          rewrite ?requests_rearm; cbn; auto.
        exists []. split; [assumption|].
        unfold req_body. cbn. rewrite Hd. cbn. now rewrite !app_nil_r in *.
      * rewrite (tick_post _ (b :: q) Hf He) by discriminate.
        cbn [bind]. intros H; injection H as <-.
        apply sound_absorb; cbn [requests is_request app];
          rewrite ?requests_rearm; cbn; auto.
        exists []. split; [reflexivity|].
        unfold req_body. cbn. now rewrite !app_nil_r.
    + rewrite tick_busy by (rewrite Hf; cbn; lia).
      cbn [bind]. intros H; injection H as <-.
      apply sound_absorb; rewrite ?requests_rearm, ?app_nil_r; auto.
      exists q. split; assumption.
  - (* Complete *)
    destruct (outstanding w) as [|r0 out] eqn:Eo; [discriminate|].
    destruct (http_poll_cb decode a conn (ctx w)) as [[c fx]|] eqn:P;
      [|discriminate].
    cbn [bind]. intros H; injection H as <-.
    apply http_poll_cb_shape in P.
    destruct P as (P1 & P2 & _ & _ & P5 & _ & _ & Q1 & _).
    cbn in Hn. assert (out = []) by (destruct out; [reflexivity|cbn in Hn; lia]).
    subst out.
    apply sound_absorb; rewrite ?Q1; cbn; auto.
    + congruence.
    + exists q. split; [congruence|]. now rewrite app_nil_r.
  - (* Egress *)
    unfold http_transport_egress. rewrite He. cbn [bind].
    intros H; injection H as <-.
    constructor; cbn [ctx outstanding appended set_egress content in_flight];
      auto.
    exists (q ++ data). split; [reflexivity|].
    unfold sent in *. cbn [calls]. now rewrite app_assoc, Hb.
  - (* Start *)
    unfold http_transport_start. intros H; injection H as <-.
    apply sound_absorb; cbn; auto.
    + now rewrite app_nil_r.
    + now rewrite app_nil_r.
    + exists q. split; [assumption|]. now rewrite app_nil_r.
  - (* Stop *)
    intros H; injection H as <-.
    unfold http_transport_stop.
    destruct (negb (running (ctx w) =? 0));
      constructor; auto; exists q; auto.
Qed.

Lemma sound_run (tr : list event) (w w' : world) :
  sound w -> run decode w tr = Ok w' -> sound w'.
Proof.
  revert w; induction tr as [|e tr IH]; intros w Hs; cbn [run].
  - intros H; injection H as <-. exact Hs.
  - destruct (step decode w e) as [w1|] eqn:E; [|discriminate].
    cbn [bind]. apply IH. exact (sound_step w w1 e Hs E).
Qed.

End Loop.

(** ** One request at a time, and what a drain carries *)

Section Requests.

Variable decode : bytes -> option tlv_packet.

(** C8.  A tick that fires while [in_flight] is set returns the context
    as it was (no drain) and makes no call but the rearm; a tick that
    issues a request sets [in_flight]; no event but a completion clears
    it; and in every run from an initialised context at most one request
    is outstanding, [in_flight] being the number of them. *)
Theorem at_most_one_in_flight :
  (forall c, in_flight c <> 0 -> http_poll_timer_cb c = Ok (c, rearm c))
  /\ (forall c c' fx,
         in_flight c = 0 -> http_poll_timer_cb c = Ok (c', fx) ->
         in_flight c' = 1 /\ exists r, requests fx = [r])
  /\ (forall w e w',
         step decode w e = Ok w' ->
         in_flight (ctx w) <> 0 -> in_flight (ctx w') = 0 ->
         exists a conn, e = Complete a conn)
  /\ (forall c tr w,
         initialised c -> run decode (fresh c) tr = Ok w ->
         (List.length (outstanding w) <= 1)%nat
         /\ in_flight (ctx w) = Z.of_nat (List.length (outstanding w))).
Proof.
  split; [exact tick_busy|]. split; [|split].
  - intros c c' fx Hf. destruct (egress c) as [q|] eqn:He.
    + destruct q as [|b q].
      * rewrite (tick_get c Hf He). intros H; injection H as <- <-.
        cbn. rewrite requests_rearm. eauto.
      * rewrite (tick_post c (b :: q) Hf He) by discriminate.
        intros H; injection H as <- <-.
        cbn. rewrite requests_rearm. eauto.
    + unfold http_poll_timer_cb. rewrite Hf. cbn. rewrite He. discriminate.
  - intros w e w' Hs Hb Hz. destruct e as [|a conn|data| |]; cbn [step] in Hs.
    + destruct (timer_armed w); [|discriminate].
      rewrite (tick_busy _ Hb) in Hs. cbn [bind] in Hs.
      injection Hs as <-. contradiction.
    + eauto.
    + unfold http_transport_egress in Hs.
      destruct (egress (ctx w)); [|discriminate].
      injection Hs as <-. contradiction.
    + injection Hs as <-. contradiction.
    + injection Hs as <-. unfold http_transport_stop in Hz.
      destruct (negb (running (ctx w) =? 0)); contradiction.
  - intros c tr w Hi Hr.
    destruct (sound_run decode tr _ _ (sound_fresh c Hi) Hr) as [_ Hn Hf _].
    auto.
Qed.

(** C9.  A tick that issues a request while bytes are queued posts the
    whole queue, in order, empties the queue and resets the request
    data buffer; and in every run from an initialised context the
    bodies of the requests issued so far, in order of issue, followed by
    the bytes still queued, are exactly the bytes appended so far: no
    byte is lost, reordered or sent twice. *)
Theorem queue_drain :
  (forall c q,
      in_flight c = 0 -> egress c = Some q -> q <> [] ->
      exists c',
        http_poll_timer_cb c
        = Ok (c', http_request (mk_req (uri c) http_request_post
                                       (Some q) (buffer_queue_len q))
                  :: rearm c)
        /\ egress c' = Some [] /\ content c' = None /\ content_len c' = 0)
  /\ (forall c tr w,
         initialised c -> run decode (fresh c) tr = Ok w ->
         exists q, egress (ctx w) = Some q /\ sent w ++ q = appended w).
Proof.
  split.
  - intros c q Hf He Hq. rewrite (tick_post c q Hf He Hq).
    eexists. split; [reflexivity|]. cbn. auto.
  - intros c tr w Hi Hr.
    destruct (sound_run decode tr _ _ (sound_fresh c Hi) Hr) as [_ _ _ Hb].
    exact Hb.
Qed.

(** ** Stop *)

Lemma stop_clears (c : http_ctx) : http_transport_stop c = set_running 0 c.
Proof.
  unfold http_transport_stop. destruct (running c =? 0) eqn:E; [|reflexivity].
  apply Z.eqb_eq in E. destruct c; cbn in *. now subst.
Qed.

(** The completion callback neither reads nor writes [running]. *)
Lemma http_poll_cb_running (a : allocator) (conn : http_conn) (r : Z)
  (c : http_ctx) :
  http_poll_cb decode a conn (set_running r c)
  = map_ctx (set_running r) (http_poll_cb decode a conn c).
Proof.
  unfold http_poll_cb, detect_command.
  destruct (http_conn_response_code conn =? 200).
  - cbn [first_packet set_running].
    destruct (first_packet c =? 0); cbn [negb].
    + destruct (negb _); cbn [bind map_ctx]; unfold backoff; cbn;
        repeat match goal with
               | |- context [if ?b then _ else _] => destruct b
               end; reflexivity.
    + unfold patch_uri.
      destruct (decode _) as [request|]; cbn [bind map_ctx].
      2:{ reflexivity. }
      destruct (tlv_packet_get_str request TLV_TYPE_METHOD) as [m|];
        [|reflexivity].
      destruct (CString.strcmp m "core_patch_url" =? 0),
               (tlv_packet_get_str request TLV_TYPE_TRANS_URL) as [nu|];
        cbn [bind map_ctx]; try reflexivity.
      cbn [uri uri_tail set_running]. destruct (uri c) as [buf|]; [|reflexivity].
      destruct (find_split buf (uri_tail c) 3 (Some O)) as [split|];
        [|reflexivity].
      cbn [bind]. destruct (asprintf a _ _ nu) as [n strp].
      reflexivity.
  - cbn [bind map_ctx]; unfold backoff; cbn;
      repeat match goal with
             | |- context [if ?b then _ else _] => destruct b
             end; reflexivity.
Qed.

(** While the transport is stopped no event but [Start] sets [running]
    again, and requests issued plus armed ticks never grow. *)
Lemma stopped_step (w w' : world) (e : event) :
  running (ctx w) = 0 -> e <> Start -> step decode w e = Ok w' ->
  running (ctx w') = 0
  /\ (issued w' + armed_ticks w' <= issued w + armed_ticks w)%nat.
Proof.
  intros Hr Hne. unfold issued, armed_ticks.
  destruct e as [|a conn|data| |]; cbn [step].
  - destruct (timer_armed w); [|discriminate].
    destruct (http_poll_timer_cb (ctx w)) as [[c fx]|] eqn:T; [|discriminate].
    cbn [bind]. intros H; injection H as <-.
    apply tick_shape in T. destruct T as (T1 & _ & T3 & T4).
    rewrite Hr in T4. cbn in T4.
    cbn [ctx absorb calls timer_armed]. rewrite T4, requests_app, List.length_app.
    cbn. split; [congruence|lia].
  - destruct (outstanding w); [discriminate|].
    destruct (http_poll_cb decode a conn (ctx w)) as [[c fx]|] eqn:P;
      [|discriminate].
    cbn [bind]. intros H; injection H as <-.
    apply http_poll_cb_shape in P.
    destruct P as (_ & _ & _ & P4 & _ & _ & _ & Q1 & Q2).
    cbn [ctx absorb calls timer_armed].
    rewrite Q2, requests_app, Q1, orb_false_r, app_nil_r.
    split; [congruence|lia].
  - unfold http_transport_egress.
    destruct (egress (ctx w)); [|discriminate].
    cbn [bind]. intros H; injection H as <-. cbn. split; [assumption|lia].
  - contradiction.
  - intros H; injection H as <-. rewrite stop_clears. cbn.
    split; [reflexivity|lia].
Qed.

Lemma stopped_run (tr : list event) (w w' : world) :
  running (ctx w) = 0 -> ~ In Start tr -> run decode w tr = Ok w' ->
  running (ctx w') = 0
  /\ (issued w' + armed_ticks w' <= issued w + armed_ticks w)%nat.
Proof.
  revert w; induction tr as [|e tr IH]; intros w Hr Hn; cbn [run].
  - intros H; injection H as <-. split; [assumption|lia].
  - destruct (step decode w e) as [w1|] eqn:E; [|discriminate].
    cbn [bind]. intros H.
    assert (He : e <> Start) by (intros ->; apply Hn; now left).
    destruct (stopped_step w w1 e Hr He E) as [Hr1 Hle].
    destruct (IH w1 Hr1 (fun X => Hn (or_intror X)) H) as [Hr' Hle'].
    split; [assumption|lia].
Qed.

(** With a timer that fires once per arming, at most one request is
    issued after a [Stop] that is not followed by a [Start]: the tick
    armed before the [Stop]. *)
Lemma one_request_after_stop (w w' : world) (tr : list event) :
  ~ In Start tr -> run decode w (Stop :: tr) = Ok w' ->
  (issued w' <= S (issued w))%nat.
Proof.
  intros Hn. cbn [run step bind]. intros H.
  apply stopped_run in H; [|now rewrite stop_clears|assumption].
  destruct H as [_ H]. unfold issued, armed_ticks in *. cbn in H.
  destruct (timer_armed w), (timer_armed w'); lia.
Qed.

(** C3, amended.  [Stop] clears [running].  From then on a tick never
    rearms the timer, yet a tick that still fires issues a request when
    none is in flight, the issue not being guarded by [running].  The
    completion callback is blind to [running]: a request in flight at
    [Stop] has its reachability report and its backoff update as if
    nothing had happened. *)
Theorem stop_semantics :
  (forall c, running (http_transport_stop c) = 0)
  /\ (forall c c' fx,
         running c = 0 -> http_poll_timer_cb c = Ok (c', fx) ->
         running c' = 0 /\ existsb is_timer_again fx = false)
  /\ (forall c q,
         running c = 0 -> in_flight c = 0 -> egress c = Some q ->
         exists c' r, http_poll_timer_cb c = Ok (c', [http_request r]))
  /\ (forall a conn c,
         http_poll_cb decode a conn (http_transport_stop c)
         = map_ctx http_transport_stop (http_poll_cb decode a conn c))
  /\ (forall a conn c c' fx,
         http_poll_cb decode a conn (http_transport_stop c) = Ok (c', fx) ->
         exists c1 got fx1,
           detect_command decode a conn (http_transport_stop c)
           = Ok (c1, got, fx1)
           /\ fx = report_of conn :: fx1
           /\ repeat c' = repeat (backoff got c1)
           /\ in_flight c' = 0).
Proof.
  split; [|split; [|split; [|split]]].
  - intros c. now rewrite stop_clears.
  - intros c c' fx Hr T. apply tick_shape in T.
    destruct T as (T1 & _ & _ & T4). rewrite Hr in T4. cbn in T4.
    split; congruence.
  - intros c q Hr Hf He. destruct q as [|b q].
    + rewrite (tick_get c Hf He). unfold rearm. rewrite Hr. cbn. eauto.
    + rewrite (tick_post c (b :: q) Hf He) by discriminate.
      unfold rearm. cbn. rewrite Hr. cbn. eauto.
  - intros a conn c. rewrite stop_clears, http_poll_cb_running.
    destruct (http_poll_cb decode a conn c) as [[c' fx]|]; cbn [map_ctx];
      [|reflexivity].
    now rewrite stop_clears.
  - intros a conn c c' fx H. apply http_poll_cb_unfold in H.
    destruct H as (c1 & g & fx1 & D & -> & ->).
    exists c1, g, fx1. repeat split; assumption.
Qed.

(** ** The handshake flag *)

(** No event sets [first_packet] again once it is cleared, and only a
    completion with status 200 clears it. *)
Lemma first_packet_step (w w' : world) (e : event) :
  step decode w e = Ok w' ->
  first_packet (ctx w') = first_packet (ctx w)
  \/ (exists a conn, e = Complete a conn
                     /\ http_conn_response_code conn = 200
                     /\ first_packet (ctx w') = 0).
Proof.
  destruct e as [|a conn|data| |]; cbn [step].
  - destruct (timer_armed w); [|discriminate].
    destruct (http_poll_timer_cb (ctx w)) as [[c fx]|] eqn:T; [|discriminate].
    cbn [bind]. intros H; injection H as <-.
    apply tick_shape in T. left. apply T.
  - destruct (outstanding w); [discriminate|].
    destruct (http_poll_cb decode a conn (ctx w)) as [[c fx]|] eqn:P;
      [|discriminate].
    cbn [bind]. intros H; injection H as <-.
    apply http_poll_cb_shape in P.
    destruct P as (_ & _ & _ & _ & _ & P6 & _). cbn [ctx absorb].
    destruct (http_conn_response_code conn =? 200) eqn:E; [|now left].
    apply Z.eqb_eq in E. right. eauto.
  - unfold http_transport_egress.
    destruct (egress (ctx w)); [|discriminate].
    cbn [bind]. intros H; injection H as <-. now left.
  - intros H; injection H as <-. now left.
  - intros H; injection H as <-. rewrite stop_clears. now left.
Qed.

Lemma first_packet_stays_cleared (tr : list event) (w w' : world) :
  run decode w tr = Ok w' ->
  first_packet (ctx w) = 0 -> first_packet (ctx w') = 0.
Proof.
  revert w; induction tr as [|e tr IH]; intros w; cbn [run].
  - intros H; injection H as <-. auto.
  - destruct (step decode w e) as [w1|] eqn:E; [|discriminate].
    cbn [bind]. intros H Hz. apply (IH w1 H).
    destruct (first_packet_step w w1 e E) as [->|(_ & _ & _ & _ & ->)]; auto.
Qed.

End Requests.

(** ** Concrete runs *)

Lemma initialised_booted : initialised (booted "https://host").
Proof.
  exists (mk_init_alloc true true true), "https://host"%string, [].
  reflexivity.
Qed.

Lemma fast_reset_witness :
  let c := set_first_packet 0 (set_repeat Double.d5_0 (booted "https://host")) in
  let conn := mk_conn 200 hello in
  (true = true <->
   http_conn_response_code conn = 200
   /\ (first_packet c <> 0 \/ http_conn_response_queue conn <> []))
  /\ exists c',
      http_poll_cb (always None) alloc_ok conn c
      = Ok (c', [c2_transport_reachable; c2_transport_ingress_queue hello])
      /\ repeat c' = Double.d0_01.
Proof.
  intros c conn. split.
  - apply (proj1 (fast_reset (always None) alloc_ok conn c)
             c true [c2_transport_ingress_queue hello]).
    reflexivity.
  - apply (proj2 (fast_reset (always None) alloc_ok conn c)
             c [c2_transport_ingress_queue hello]).
    reflexivity.
Defined.

Lemma at_most_one_in_flight_witness :
  let busy := set_in_flight 1 (booted "https://host") in
  http_poll_timer_cb busy = Ok (busy, rearm busy)
  /\ (in_flight (set_in_flight 1 (booted "https://host")) = 1
      /\ exists r,
          requests [http_request (mk_req (Some "https://host"%string)
                                         http_request_get None 0)] = [r])
  /\ exists w,
      run (always None) (fresh (booted "https://host")) session = Ok w
      /\ (List.length (outstanding w) <= 1)%nat
      /\ in_flight (ctx w) = Z.of_nat (List.length (outstanding w)).
Proof.
  intros busy. split; [|split].
  - apply (proj1 (at_most_one_in_flight (always None)) busy).
    cbn. discriminate.
  - apply (proj1 (proj2 (at_most_one_in_flight (always None)))
             (booted "https://host")); reflexivity.
  - eexists. split; [vm_compute; reflexivity|].
    apply (proj2 (proj2 (proj2 (at_most_one_in_flight (always None))))
             (booted "https://host") session).
    + exact initialised_booted.
    + vm_compute; reflexivity.
Defined.

Lemma queue_drain_witness :
  let c := set_egress (Some hello) (booted "https://host") in
  (exists c',
      http_poll_timer_cb c
      = Ok (c', http_request (mk_req (Some "https://host"%string)
                                     http_request_post (Some hello) 2)
                :: rearm c)
      /\ egress c' = Some [] /\ content c' = None /\ content_len c' = 0)
  /\ exists w,
      run (always None) (fresh (booted "https://host")) session = Ok w
      /\ exists q, egress (ctx w) = Some q /\ sent w ++ q = appended w.
Proof.
  intros c. split.
  - apply (proj1 (queue_drain (always None)) c hello);
      [reflexivity|reflexivity|discriminate].
  - eexists. split; [vm_compute; reflexivity|].
    apply (proj2 (queue_drain (always None)) (booted "https://host") session).
    + exact initialised_booted.
    + vm_compute; reflexivity.
Defined.

(** C3, as stated, fails: the tick that was armed before [Stop] fires
    after it, finds no request in flight and issues a second request. *)
Lemma request_issued_after_stop :
  let get := mk_req (Some "https://host"%string) http_request_get None 0 in
  let before := [Start; Tick; Complete alloc_ok (mk_conn 200 []); Stop] in
  requests_of_run (always None) (fresh (booted "https://host")) before
  = Some [get]
  /\ requests_of_run (always None) (fresh (booted "https://host"))
                     (before ++ [Tick])
     = Some [get; get].
Proof. split; reflexivity. Qed.

Lemma stop_semantics_witness :
  let stopped := http_transport_stop (booted "https://host") in
  let inflight := set_in_flight 1 (set_first_packet 0 stopped) in
  (running (set_in_flight 1 stopped) = 0
   /\ existsb is_timer_again
        [http_request (mk_req (Some "https://host"%string)
                              http_request_get None 0)] = false)
  /\ (exists c' r, http_poll_timer_cb stopped = Ok (c', [http_request r]))
  /\ (exists c1 got fx1,
         detect_command (always None) alloc_ok (mk_conn 200 hello)
                        (http_transport_stop inflight)
         = Ok (c1, got, fx1)
         /\ [c2_transport_reachable; c2_transport_ingress_queue hello]
            = report_of (mk_conn 200 hello) :: fx1
         /\ repeat (set_in_flight 0 (set_repeat Double.d0_01 inflight))
            = repeat (backoff got c1)
         /\ in_flight (set_in_flight 0 (set_repeat Double.d0_01 inflight)) = 0).
Proof.
  intros stopped inflight. split; [|split].
  - apply (proj1 (proj2 (stop_semantics (always None))) stopped
             (set_in_flight 1 stopped)); reflexivity.
  - apply (proj1 (proj2 (proj2 (stop_semantics (always None)))) stopped []);
      reflexivity.
  - apply (proj2 (proj2 (proj2 (proj2 (stop_semantics (always None)))))
             alloc_ok (mk_conn 200 hello) inflight).
    reflexivity.
Defined.

Lemma one_request_after_stop_example :
  exists w w',
    run (always None) (fresh (booted "https://host"))
        [Start; Tick; Complete alloc_ok (mk_conn 200 [])] = Ok w
    /\ run (always None) w [Stop; Tick] = Ok w'
    /\ issued w' = S (issued w).
Proof. do 2 eexists. repeat split; vm_compute; reflexivity. Qed.

(** C6 fails on the code, by the defect of C4.  When the first 200
    response decodes to a frame without a method value, the callback
    faults inside [patch_uri] before it reaches the line that clears
    [first_packet]: no run that contains this response reaches a state
    in which the handshake is consumed. *)
Theorem handshake_not_consumed_without_method (body : bytes)
  (tr : list event) :
  first_packet (booted "https://host/old/path") = 1
  /\ run (always (Some [(TLV_TYPE_TRANS_URL, "/v2/x"%string)]))
         (fresh (booted "https://host/old/path"))
         ([Start; Tick; Complete alloc_ok (mk_conn 200 body)] ++ tr)
     = Fault NullDeref.
Proof. split; reflexivity. Qed.

(** ** Teardown *)

(** [http_transport_free] releases the queue and leaves the pointer in
    place, [http_ctx_free] releases whatever the pointer holds: run one
    after the other, or the hook twice, they hand the same queue to
    [buffer_queue_free] twice.  Each entry point alone releases it
    once. *)
Lemma teardown_releases_queue_twice (u : string) (q : bytes) :
  let c := set_egress (Some q) (booted u) in
  teardown [hook_transport_free; hook_ctx_free] c
  = [buffer_queue_free (Some q); buffer_queue_free (Some q);
     free_uri (Some u); free_ctx]
  /\ teardown [hook_ctx_free; hook_transport_free] c
     = [buffer_queue_free (Some q); free_uri (Some u); free_ctx;
        buffer_queue_free (Some q)]
  /\ queue_releases (teardown [hook_transport_free; hook_ctx_free] c) = 2%nat
  /\ queue_releases (teardown [hook_ctx_free; hook_transport_free] c) = 2%nat
  /\ queue_releases (teardown [hook_transport_free; hook_transport_free] c)
     = 2%nat
  /\ queue_releases (teardown [hook_transport_free] c) = 1%nat
  /\ queue_releases (teardown [hook_ctx_free] c) = 1%nat.
Proof. cbn. repeat split. Qed.





(** ** The backoff ramp *)

(** The three literals are the correctly rounded quotients. *)
Lemma literals_rounded :
  Double.d0_01 = Double.div (Double.of_Z 1) (Double.of_Z 100)
  /\ Double.d0_1 = Double.div (Double.of_Z 1) (Double.of_Z 10)
  /\ Double.d5_0 = Double.of_Z 5.
Proof. repeat split; vm_compute; reflexivity. Qed.

Lemma polls_add (decode : bytes -> option tlv_packet) (a : allocator)
  (conn : http_conn) (m n : nat) (c : http_ctx) :
  polls decode a conn (m + n) c
  = (c' <- polls decode a conn m c ;; polls decode a conn n c').
Proof.
  revert c; induction m as [|m IH]; intros c; cbn [polls Nat.add bind].
  - reflexivity.
  - destruct (http_poll_cb decode a conn c) as [[c1 fx]|]; cbn [bind]; auto.
Qed.

(** In exact arithmetic the idle ramp from 0.01 is 0.1, 0.2, ... up to
    5.0, where it stays. *)
Lemma ramp_exact_tenths (x : Q) (k : nat) :
  (1 <= k <= 50)%nat -> (x == Z.of_nat k # 10)%Q ->
  (ramp_exact x == Z.of_nat (Nat.min (S k) 50) # 10)%Q.
Proof.
  intros Hk Hx. unfold ramp_exact.
  destruct (Qlt_le_dec x (1 # 10)) as [H|H].
  - exfalso. rewrite Hx in H. unfold Qlt in H. cbn in H. lia.
  - destruct (Qlt_le_dec x 5) as [H5|H5]; rewrite Hx in H5.
    + unfold Qlt in H5. cbn in H5.
      rewrite Nat.min_l by lia. rewrite Hx.
      unfold Qeq, Qplus. cbn. lia.
    + unfold Qle in H5. cbn in H5.
      rewrite Nat.min_r by lia. rewrite Hx.
      unfold Qeq. cbn. lia.
Qed.

Lemma idle_ramp_exact (n : nat) :
  (ramp_exact_iter (S n) (1 # 100) == Z.of_nat (Nat.min (S n) 50) # 10)%Q.
Proof.
  induction n as [|n IH].
  - cbn. unfold ramp_exact.
    destruct (Qlt_le_dec (1 # 100) (1 # 10)) as [H|H]; [reflexivity|].
    unfold Qle in H. cbn in H. lia.
  - change (ramp_exact_iter (S (S n)) (1 # 100))
      with (ramp_exact (ramp_exact_iter (S n) (1 # 100))).
    rewrite (ramp_exact_tenths _ (Nat.min (S n) 50)); [|lia|exact IH].
    replace (Nat.min (S (Nat.min (S n) 50)) 50) with (Nat.min (S (S n)) 50)
      by lia.
    reflexivity.
Qed.

(** C5 fails on the code.  From the interval 0.01 set by
    [http_transport_start], fifty failed polls bring the [double]
    interval to 4.999999999999998, which is still below 5.0, so the
    fifty-first poll adds another 0.1: from then on the interval is
    5.099999999999998, above the ceiling, for as long as the channel
    stays idle. *)
Theorem idle_backoff_overshoots (decode : bytes -> option tlv_packet)
  (a : allocator) (k : nat) :
  let idle := mk_conn 0 [] in
  let c0 := started "https://host" in
  repeat c0 = Double.d0_01
  /\ (exists c,
         polls decode a idle 50 c0 = Ok c
         /\ repeat c = S754_finite false 5629499534213118 (-50)
         /\ Double.ltb (repeat c) Double.d5_0 = true)
  /\ (exists c,
         polls decode a idle (51 + k) c0 = Ok c
         /\ repeat c = S754_finite false 5742089524897380 (-50)
         /\ Double.ltb Double.d5_0 (repeat c) = true
         /\ Double.to_Q (repeat c) = Some (5742089524897380 # 2 ^ 50)%Q
         /\ (5 < 5742089524897380 # 2 ^ 50)%Q).
Proof.
  intros idle c0. split; [reflexivity|]. split.
  - eexists. split; [vm_compute; reflexivity|]. split; reflexivity.
  - assert (H51 : exists c,
               polls decode a idle 51 c0 = Ok c
               /\ http_poll_cb decode a idle c = Ok (c, [c2_transport_unreachable])
               /\ repeat c = S754_finite false 5742089524897380 (-50)).
    { eexists. split; [vm_compute; reflexivity|]. split; reflexivity. }
    destruct H51 as (c & P & Fix & R).
    exists c. split.
    + rewrite polls_add, P. cbn [bind].
      induction k as [|k IH]; [reflexivity|].
      cbn [polls]. rewrite Fix. cbn [bind]. exact IH.
    + rewrite R. repeat split.
Qed.

(** * Further properties of the code *)

(** ** Initialisation *)

Section InitFacts.

Import CString.
Local Open Scope string_scope.

Lemma strchr_cut (c : ascii) (s : string) (p : nat) :
  strchr s c = Some p ->
  s = take p s ++ String c (drop (S p) s) /\ count c (take p s) = O.
Proof.
  revert p; induction s as [|x s IH]; cbn [strchr]; intros p H; [discriminate|].
  destruct (Ascii.eqb x c) eqn:E.
  - injection H as <-. apply Ascii.eqb_eq in E. subst x. split; reflexivity.
  - destruct (strchr s c) as [j|]; [|discriminate].
    injection H as <-. destruct (IH j eq_refl) as [H1 H2].
    cbn [take drop append count]. rewrite E, H2. split; [|reflexivity].
    f_equal. exact H1.
Qed.

Lemma strchr_none_count (c : ascii) (s : string) :
  strchr s c = None <-> count c s = O.
Proof.
  induction s as [|x s IH]; cbn [strchr count]; [tauto|].
  destruct (Ascii.eqb x c).
  - split; [discriminate|]. cbn. discriminate.
  - destruct (strchr s c) as [j|]; cbn [option_map].
    + split; [discriminate|]. intros H. apply IH in H. discriminate.
    + split; [|reflexivity]. intros _. now apply IH.
Qed.

(** X1.  The endpoint a successful initialisation stores is the
    transport URI up to its first '|': it contains no '|', and the
    transport URI is the endpoint itself or the endpoint, a '|' and an
    argument string. *)
Theorem init_endpoint_cut (m : init_alloc) (transport_uri : string)
  (c : http_ctx) (fx : list effect) :
  http_transport_init m transport_uri = (0%Z, Some c, fx) ->
  exists u,
    uri c = Some u /\ count "|" u = O
    /\ (transport_uri = u
        \/ exists args, transport_uri = u ++ "|" ++ args).
Proof.
  unfold http_transport_init.
  destruct (calloc_ok m); cbn [negb]; [|discriminate].
  destruct (strdup_ok m); cbn [negb]; [|discriminate].
  destruct (buffer_queue_new_ok m); cbn [negb]; [|discriminate].
  intros H. injection H as <- _. cbn [uri set_egress set_first_packet set_uri].
  destruct (strchr transport_uri "|") as [p|] eqn:E.
  - destruct (strchr_cut _ _ _ E) as [H1 H2].
    exists (take p transport_uri). repeat split; auto.
    right. exists (drop (S p) transport_uri). exact H1.
  - exists transport_uri. repeat split; auto. now apply strchr_none_count.
Qed.

Lemma init_endpoint_cut_witness :
  exists u,
    uri (set_uri_buffer (Some "https://host/p") (Some "--ua curl")
                        (booted "https://host/p")) = Some u
    /\ count "|" u = O
    /\ ("https://host/p|--ua curl" = u
        \/ exists args, "https://host/p|--ua curl" = u ++ "|" ++ args).
Proof.
  apply (init_endpoint_cut (mk_init_alloc true true true)
           "https://host/p|--ua curl"
           (set_uri_buffer (Some "https://host/p") (Some "--ua curl")
                           (booted "https://host/p")) []).
  reflexivity.
Defined.

(** X2.  [http_transport_init] returns 0 exactly when its three
    allocations succeed, with a context for the framework and nothing
    released.  Otherwise it returns -1 and hands over no context; the
    context block, if it was obtained, is released exactly once and no
    queue is released. *)
Theorem init_failure_clean (m : init_alloc) (transport_uri : string) :
  let r := http_transport_init m transport_uri in
  (calloc_ok m && strdup_ok m && buffer_queue_new_ok m = true
   /\ fst (fst r) = 0%Z /\ snd r = []
   /\ exists c, snd (fst r) = Some c)
  \/ (calloc_ok m && strdup_ok m && buffer_queue_new_ok m = false
      /\ fst (fst r) = (-1)%Z /\ snd (fst r) = None
      /\ queue_releases (snd r) = O
      /\ List.length (filter is_ctx_free (snd r))
         = if calloc_ok m then 1%nat else O).
Proof.
  destruct m as [[] [] []]; cbn;
    try (right; repeat split; reflexivity).
  left. repeat split. eauto.
Qed.

(** ** The User-Agent argument *)

Lemma select_ua_no_flag (d : string) (argv : list string) :
  ~ In "--ua" argv -> select_ua d argv = d.
Proof.
  revert d; induction argv as [|a argv IH]; intros d H; cbn [select_ua];
    [reflexivity|].
  destruct (strcmp a "--ua" =? 0)%Z eqn:E.
  - apply strcmp_eq0 in E. subst a. exfalso. apply H. now left.
  - apply IH. intros X. apply H. now right.
Qed.

Lemma select_ua_cons (d a : string) (rest : list string) :
  select_ua d (a :: rest)
  = select_ua (if (strcmp a "--ua" =? 0)%Z
               then match rest with
                    | v :: _ => v
                    | [] => d
                    end
               else d) rest.
Proof. reflexivity. Qed.

(** X3.  The User-Agent is the token that follows the last [--ua]
    which has a token after it: whatever precedes, a [--ua v] after
    which no token is [--ua] selects [v]. *)
Theorem select_ua_last_wins (d v : string) (pre post : list string) :
  ~ In "--ua" (v :: post) ->
  select_ua d (pre ++ "--ua" :: v :: post) = v.
Proof.
  intros H. revert d; induction pre as [|a pre IH]; intros d.
  - cbn [app]. rewrite select_ua_cons.
    change (strcmp "--ua" "--ua" =? 0)%Z with true.
    cbv iota. apply select_ua_no_flag. exact H.
  - cbn [app]. rewrite select_ua_cons. apply IH.
Qed.

Lemma select_ua_last_wins_witness :
  select_ua default_ua (["-x"; "--ua"; "first"] ++ "--ua" :: "curl/8" :: ["-y"])
  = "curl/8".
Proof.
  apply (select_ua_last_wins default_ua "curl/8" ["-x"; "--ua"; "first"] ["-y"]).
  cbn. intros [H|[H|[]]]; discriminate.
Defined.

(** X4.  Without a [--ua] token the User-Agent keeps its default, and
    so it does when the only [--ua] is the last token, which has no
    value to take. *)
Theorem select_ua_default (d : string) (argv : list string) :
  ~ In "--ua" argv ->
  select_ua d argv = d /\ select_ua d (argv ++ ["--ua"]) = d.
Proof.
  intros H. split; [now apply select_ua_no_flag|].
  revert d; induction argv as [|a argv IH]; intros d.
  - reflexivity.
  - cbn [app select_ua].
    destruct (strcmp a "--ua" =? 0)%Z eqn:E.
    + apply strcmp_eq0 in E. subst a. exfalso. apply H. now left.
    + apply IH. intros X. apply H. now right.
Qed.

Lemma select_ua_default_witness :
  select_ua default_ua ["-x"; "y"] = default_ua
  /\ select_ua default_ua (["-x"; "y"] ++ ["--ua"]) = default_ua.
Proof.
  apply (select_ua_default default_ua ["-x"; "y"]).
  cbn. intros [H|[H|[]]]; discriminate.
Defined.

(** X5.  The arguments are what follows the first '|' of the transport
    URI.  A URI without '|', or with nothing after it, keeps the
    default User-Agent and the splitter is not consulted; otherwise the
    User-Agent is selected among the tokens of the argument string. *)
Theorem init_user_agent_args (argv_split : string -> list string)
  (u args : string) :
  count "|" u = O ->
  init_user_agent argv_split u = default_ua
  /\ init_user_agent argv_split (u ++ "|") = default_ua
  /\ (args <> "" ->
      init_user_agent argv_split (u ++ "|" ++ args)
      = select_ua default_ua (argv_split args)).
Proof.
  intros Hu. unfold init_user_agent. repeat split.
  - apply strchr_none_count in Hu. now rewrite Hu.
  - cbn [append]. rewrite (strchr_app_hit "|" u "" Hu), drop_past_hit.
    reflexivity.
  - intros Ha. cbn [append].
    rewrite (strchr_app_hit "|" u args Hu), drop_past_hit.
    destruct args as [|x args]; [contradiction|]. reflexivity.
Qed.

Lemma init_user_agent_args_witness :
  init_user_agent (fun _ => ["--ua"; "curl/8"]) "https://host/p" = default_ua
  /\ init_user_agent (fun _ => ["--ua"; "curl/8"]) ("https://host/p" ++ "|")
     = default_ua
  /\ ("--ua curl/8" <> "" ->
      init_user_agent (fun _ => ["--ua"; "curl/8"])
                      ("https://host/p" ++ "|" ++ "--ua curl/8")
      = select_ua default_ua ["--ua"; "curl/8"]).
Proof.
  apply (init_user_agent_args (fun _ => ["--ua"; "curl/8"])
           "https://host/p" "--ua curl/8").
  reflexivity.
Defined.

End InitFacts.

(** ** What a completion reports and delivers *)

Section CompletionFacts.

Variable decode : bytes -> option tlv_packet.

Lemma patch_uri_calls (a : allocator) (c c' : http_ctx) (q : bytes)
  (fx : list effect) :
  patch_uri decode a c q = Ok (c', fx) ->
  fx = [] \/ exists s, fx = [free_uri s].
Proof.
  unfold patch_uri.
  destruct (decode q) as [request|]; [|intros H; injection H as _ <-; auto].
  destruct (tlv_packet_get_str request TLV_TYPE_METHOD) as [m|]; [|discriminate].
  destruct (CString.strcmp m "core_patch_url" =? 0),
           (tlv_packet_get_str request TLV_TYPE_TRANS_URL) as [nu|];
    try (intros H; injection H as _ <-; auto).
  destruct (uri c) as [buf|]; [|discriminate].
  destruct (find_split buf (uri_tail c) 3 (Some O)) as [split|]; [|discriminate].
  cbn [bind]. destruct (asprintf a _ _ nu) as [n strp].
  intros H; injection H as _ <-. destruct (0 <? n); eauto.
Qed.

Lemma detect_command_calls (a : allocator) (conn : http_conn)
  (c c1 : http_ctx) (g : bool) (fx1 : list effect) :
  detect_command decode a conn c = Ok (c1, g, fx1) ->
  filter is_report fx1 = []
  /\ ingress_calls fx1
     = (if (http_conn_response_code conn =? 200)
           && (first_packet c =? 0)
           && negb (buffer_queue_len (http_conn_response_queue conn) =? 0)
        then [http_conn_response_queue conn] else [])
  /\ (http_conn_response_code conn <> 200 \/ first_packet c = 0 -> c1 = c).
Proof.
  unfold detect_command.
  destruct (http_conn_response_code conn =? 200) eqn:E200; cbn [andb].
  - apply Z.eqb_eq in E200.
    destruct (first_packet c =? 0) eqn:Ef; cbn [negb andb].
    + destruct (buffer_queue_len (http_conn_response_queue conn) =? 0);
        cbn [negb]; intros H; injection H as <- _ <-; repeat split.
    + apply Z.eqb_neq in Ef.
      destruct (patch_uri decode a c (http_conn_response_queue conn))
        as [[c2 fx2]|] eqn:P; [|discriminate].
      cbn [bind]. intros H; injection H as _ _ <-.
      apply patch_uri_calls in P.
      destruct P as [->|[s ->]]; repeat split;
        intros [X|X]; contradiction.
  - intros H; injection H as <- _ <-. repeat split.
Qed.

(** X6.  Every completion that returns makes exactly one reachability
    report, and it reports the channel reachable exactly when the
    response code is positive, whatever the code and the body are
    otherwise. *)
Theorem one_reachability_report (a : allocator) (conn : http_conn)
  (c c' : http_ctx) (fx : list effect) :
  http_poll_cb decode a conn c = Ok (c', fx) ->
  filter is_report fx = [report_of conn]
  /\ (report_of conn = c2_transport_reachable
      <-> 0 < http_conn_response_code conn)
  /\ (report_of conn = c2_transport_unreachable
      <-> http_conn_response_code conn <= 0).
Proof.
  intros H. apply http_poll_cb_unfold in H.
  destruct H as (c1 & g & fx1 & D & _ & ->).
  apply detect_command_calls in D. destruct D as (D & _).
  unfold report_of.
  destruct (0 <? http_conn_response_code conn) eqn:E;
    cbn [filter is_report]; rewrite D;
    [apply Z.ltb_lt in E|apply Z.ltb_ge in E];
    repeat split; intros; try assumption; try reflexivity;
    try discriminate; lia.
Qed.

(** X7.  A completion hands a body to the framework in one case only:
    status 200, handshake already consumed, body not empty; it then
    hands over that body, whole and once.  The body of the handshake
    response is never delivered. *)
Theorem ingress_delivery (a : allocator) (conn : http_conn)
  (c c' : http_ctx) (fx : list effect) :
  http_poll_cb decode a conn c = Ok (c', fx) ->
  ingress_calls fx
  = if (http_conn_response_code conn =? 200)
       && (first_packet c =? 0)
       && negb (buffer_queue_len (http_conn_response_queue conn) =? 0)
    then [http_conn_response_queue conn] else [].
Proof.
  intros H. apply http_poll_cb_unfold in H.
  destruct H as (c1 & g & fx1 & D & _ & ->).
  apply detect_command_calls in D. destruct D as (_ & D & _).
  unfold report_of. destruct (0 <? _); cbn [ingress_calls]; exact D.
Qed.

(** X8.  The handshake tolerates a controller that does not rewrite:
    when the first 200 response does not decode, or decodes to a frame
    whose method is another command or which has no new path, the
    endpoint is kept, the handshake is consumed, the interval is 0.01
    and the only call is the reachability report. *)
Theorem handshake_tolerant (a : allocator) (q : bytes) (c : http_ctx) :
  first_packet c <> 0 ->
  decode q = None
  \/ (exists request m,
         decode q = Some request
         /\ tlv_packet_get_str request TLV_TYPE_METHOD = Some m
         /\ (m <> "core_patch_url"%string
             \/ tlv_packet_get_str request TLV_TYPE_TRANS_URL = None)) ->
  http_poll_cb decode a (mk_conn 200 q) c
  = Ok (set_in_flight 0 (set_repeat Double.d0_01 (set_first_packet 0 c)),
        [c2_transport_reachable]).
Proof.
  intros Hf H.
  assert (P : patch_uri decode a c q = Ok (c, [])).
  { destruct H as [H|(request & m & H1 & H2 & H3)].
    - now apply patch_uri_no_frame.
    - now apply (patch_uri_no_match decode a c q request m). }
  unfold http_poll_cb, detect_command. cbn [http_conn_response_code
    http_conn_response_queue Z.eqb Pos.eqb Z.ltb Z.compare].
  apply Z.eqb_neq in Hf. rewrite Hf. cbn [negb]. rewrite P. reflexivity.
Qed.

End CompletionFacts.

Lemma one_reachability_report_witness :
  filter is_report [c2_transport_reachable]
  = [report_of (mk_conn 404 hello)]
  /\ (report_of (mk_conn 404 hello) = c2_transport_reachable <-> 0 < 404)
  /\ (report_of (mk_conn 404 hello) = c2_transport_unreachable <-> 404 <= 0).
Proof.
  apply (one_reachability_report (always None) alloc_ok (mk_conn 404 hello)
           (booted "https://host")
           (set_repeat Double.d0_1 (booted "https://host"))
           [c2_transport_reachable]).
  reflexivity.
Defined.

Lemma ingress_delivery_witness :
  ingress_calls [c2_transport_reachable; c2_transport_ingress_queue hello]
  = [hello].
Proof.
  apply (ingress_delivery (always None) alloc_ok (mk_conn 200 hello)
           (set_first_packet 0 (booted "https://host"))
           (set_repeat Double.d0_01 (set_first_packet 0 (booted "https://host")))
           [c2_transport_reachable; c2_transport_ingress_queue hello]).
  reflexivity.
Defined.

Lemma handshake_tolerant_witness :
  http_poll_cb (always (Some [(TLV_TYPE_METHOD, "core_loadlib"%string)]))
               alloc_ok (mk_conn 200 hello) (booted "https://host/old")
  = Ok (set_in_flight 0
          (set_repeat Double.d0_01
             (set_first_packet 0 (booted "https://host/old"))),
        [c2_transport_reachable]).
Proof.
  apply (handshake_tolerant
           (always (Some [(TLV_TYPE_METHOD, "core_loadlib"%string)]))
           alloc_ok hello (booted "https://host/old")).
  - cbn. discriminate.
  - right. exists [(TLV_TYPE_METHOD, "core_loadlib"%string)],
      "core_loadlib"%string.
    repeat split. left. discriminate.
Defined.

(** ** The endpoint over time *)

Lemma tick_keeps (c c' : http_ctx) (fx : list effect) :
  http_poll_timer_cb c = Ok (c', fx) ->
  uri c' = uri c /\ repeat c' = repeat c /\ content_len c' = content_len c
  \/ uri c' = uri c /\ repeat c' = repeat c /\ content_len c' = 0.
Proof.
  destruct (Z.eq_dec (in_flight c) 0) as [Hf|Hf].
  - destruct (egress c) as [q|] eqn:He.
    + destruct q as [|b q].
      * rewrite (tick_get c Hf He). intros H; injection H as <- _.
        left. repeat split.
      * rewrite (tick_post c (b :: q) Hf He) by discriminate.
        intros H; injection H as <- _. right. repeat split.
    + unfold http_poll_timer_cb. rewrite Hf. cbn. rewrite He. discriminate.
  - rewrite (tick_busy c Hf). intros H; injection H as <- _.
    left. repeat split.
Qed.

Section EndpointFacts.

Import CString.

Variable decode : bytes -> option tlv_packet.

Lemma uri_step (w w' : world) (e : event) :
  step decode w e = Ok w' ->
  uri (ctx w') = uri (ctx w)
  \/ (exists a conn, e = Complete a conn
                     /\ http_conn_response_code conn = 200
                     /\ first_packet (ctx w) <> 0
                     /\ first_packet (ctx w') = 0).
Proof.
  destruct e as [|a conn|data| |]; cbn [step].
  - destruct (timer_armed w); [|discriminate].
    destruct (http_poll_timer_cb (ctx w)) as [[c fx]|] eqn:T; [|discriminate].
    cbn [bind]. intros H; injection H as <-.
    left. cbn [ctx absorb]. apply tick_keeps in T. tauto.
  - destruct (outstanding w); [discriminate|].
    destruct (http_poll_cb decode a conn (ctx w)) as [[c fx]|] eqn:P;
      [|discriminate].
    cbn [bind]. intros H; injection H as <-. cbn [ctx absorb].
    pose proof (http_poll_cb_shape decode _ _ _ _ _ P)
      as (_ & _ & _ & _ & _ & S6 & _).
    apply http_poll_cb_unfold in P.
    destruct P as (c1 & g & fx1 & D & -> & _).
    apply detect_command_calls in D. destruct D as (_ & _ & D).
    destruct (settle_fields g c1) as (_ & _ & _ & _ & _ & _ & U).
    rewrite U.
    destruct (Z.eq_dec (http_conn_response_code conn) 200) as [E|E].
    + destruct (Z.eq_dec (first_packet (ctx w)) 0) as [F|F].
      * left. now rewrite D by auto.
      * right. exists a, conn. rewrite E in S6. cbn in S6. auto.
    + left. now rewrite D by auto.
  - unfold http_transport_egress.
    destruct (egress (ctx w)); [|discriminate].
    cbn [bind]. intros H; injection H as <-. now left.
  - intros H; injection H as <-. now left.
  - intros H; injection H as <-. rewrite stop_clears. now left.
Qed.

(** X9.  The endpoint is rewritten at most once.  An event changes it
    only if it is the completion with status 200 that consumes the
    handshake; once the handshake is consumed the endpoint is the same
    at the end of every run. *)
Theorem endpoint_rewritten_at_most_once :
  (forall w e w',
      step decode w e = Ok w' -> uri (ctx w') <> uri (ctx w) ->
      exists a conn,
        e = Complete a conn /\ http_conn_response_code conn = 200
        /\ first_packet (ctx w) <> 0 /\ first_packet (ctx w') = 0)
  /\ (forall tr w w',
         run decode w tr = Ok w' -> first_packet (ctx w) = 0 ->
         uri (ctx w') = uri (ctx w)).
Proof.
  split.
  - intros w e w' Hs Hne. destruct (uri_step w w' e Hs) as [H|H];
      [contradiction|exact H].
  - induction tr as [|e tr IH]; intros w w'; cbn [run].
    + intros H; injection H as <-. reflexivity.
    + destruct (step decode w e) as [w1|] eqn:E; [|discriminate].
      cbn [bind]. intros H Hz.
      assert (Hz1 : first_packet (ctx w1) = 0).
      { apply (first_packet_stays_cleared decode [e] w w1); [|exact Hz].
        cbn [run]. rewrite E. reflexivity. }
      rewrite (IH w1 w' H Hz1).
      destruct (uri_step w w1 e E) as [U|(_ & _ & _ & _ & F & _)];
        [exact U|contradiction].
Qed.

(** A store behind the terminator leaves an empty string empty. *)
Lemma cut_empty (tl : option string) (sp : option nat) :
  fst (cut "" tl sp) = ""%string.
Proof.
  destruct sp as [x|]; [|reflexivity]. unfold cut.
  cbn [String.length Nat.ltb Nat.leb]. destruct (x =? 0)%nat; reflexivity.
Qed.

(** Behind an empty endpoint the loop of [patch_uri] walks the tail
    and stays inside it. *)
Lemma find_split_tail (t : string) (n p : nat) :
  (p <= String.length t)%nat ->
  exists r, find_split "" (Some t) n (Some p) = Ok r.
Proof.
  revert p; induction n as [|n IH]; intros p Hp; cbn [find_split]; [eauto|].
  unfold strchr_at. cbn [String.length Nat.leb Nat.sub].
  rewrite Nat.sub_0_r. apply Nat.leb_le in Hp. rewrite Hp.
  apply Nat.leb_le in Hp. cbn [bind].
  destruct (strchr (drop p t) "/") as [i|] eqn:E; cbn [option_map].
  - apply strchr_some_count in E. destruct E as [Hi _].
    rewrite length_drop in Hi. apply IH. lia.
  - rewrite find_split_null. eauto.
Qed.

(** X10.  A transport URI that starts with '|' initialises to an empty
    endpoint with the argument text behind its terminator.  On an empty
    endpoint the search of [patch_uri] starts behind the terminator:
    when text lies there, whatever it is, a matching frame makes the
    new path the whole endpoint (and the old buffer is released unless
    the new path is empty too); when the allocation ends at the
    terminator the search reads out of bounds. *)
Theorem empty_endpoint_rewrite :
  (forall args : string,
      exists c t,
        http_transport_init (mk_init_alloc true true true) (String "|" args)
        = (0, Some c, [])
        /\ uri c = Some ""%string /\ uri_tail c = Some t)
  /\ (forall c q request nu t,
         decode q = Some request ->
         tlv_packet_get_str request TLV_TYPE_METHOD
         = Some "core_patch_url"%string ->
         tlv_packet_get_str request TLV_TYPE_TRANS_URL = Some nu ->
         uri c = Some ""%string -> uri_tail c = Some t ->
         patch_uri decode alloc_ok c q
         = Ok (set_uri (Some nu) c,
               if 0 <? Z.of_nat (String.length nu)
               then [free_uri (Some ""%string)] else []))
  /\ (forall a c q request nu,
         decode q = Some request ->
         tlv_packet_get_str request TLV_TYPE_METHOD
         = Some "core_patch_url"%string ->
         tlv_packet_get_str request TLV_TYPE_TRANS_URL = Some nu ->
         uri c = Some ""%string -> uri_tail c = None ->
         patch_uri decode a c q = Fault OutOfBounds).
Proof.
  split; [|split].
  - intros args. do 2 eexists. split; [reflexivity|]. split; reflexivity.
  - intros c q request nu t Hq Hm Hn Hu Ht.
    unfold patch_uri. rewrite Hq, Hm, Hn, Hu, Ht.
    change (strcmp "core_patch_url" "core_patch_url" =? 0) with true.
    cbv iota.
    destruct (find_split_tail t 3 0) as [r ->]; [lia|].
    cbn [bind]. rewrite cut_empty.
    reflexivity.
  - intros a c q request nu Hq Hm Hn Hu Ht.
    unfold patch_uri. rewrite Hq, Hm, Hn, Hu, Ht. reflexivity.
Qed.

Lemma length_take (i : nat) (s : string) :
  (i <= String.length s)%nat -> String.length (take i s) = i.
Proof.
  revert s; induction i as [|i IH]; intros s H; [reflexivity|].
  destruct s as [|x s]; cbn in *; [lia|]. rewrite IH; lia.
Qed.

Lemma seek_hit (n : nat) (s : string) :
  (n < count "/" s)%nat ->
  exists i, seek n s = Some i /\ (i < String.length s)%nat.
Proof.
  revert s; induction n as [|n IH]; intros s H; cbn [seek];
    destruct (strchr s "/") as [i|] eqn:E;
    try (apply strchr_none_count in E; lia);
    apply strchr_some_count in E; destruct E as [Hi Hc].
  - eauto.
  - destruct (IH (drop (S i) s)) as (j & Hj & Hlt); [lia|].
    rewrite Hj. rewrite length_drop in Hlt.
    exists (S i + j)%nat. split; [reflexivity|lia].
Qed.

(** X11.  When the allocation of the rewritten endpoint fails and the C
    library leaves the pointer alone, nothing is released, and the
    endpoint comes out unchanged exactly when it had fewer than three
    slashes after its first character, that is when there was nothing
    to cut. *)
Theorem alloc_failure_endpoint (c : http_ctx) (q : bytes)
  (request : tlv_packet) (c0 : ascii) (rest nu : string) :
  decode q = Some request ->
  tlv_packet_get_str request TLV_TYPE_METHOD = Some "core_patch_url"%string ->
  tlv_packet_get_str request TLV_TYPE_TRANS_URL = Some nu ->
  uri c = Some (String c0 rest) ->
  exists c',
    patch_uri decode (alloc_fail strp_untouched) c q = Ok (c', [])
    /\ (uri c' = uri c <-> (count "/" rest < 3)%nat).
Proof.
  intros Hq Hm Hn Hu.
  rewrite (patch_uri_match decode _ c q request c0 rest nu Hq Hm Hn Hu).
  cbn [asprintf fst snd Z.ltb Z.compare].
  eexists. split; [reflexivity|]. cbn [uri set_uri]. rewrite Hu.
  destruct (Nat.lt_ge_cases (count "/" rest) 3) as [Hlt|Hge].
  - rewrite (seek_miss 2 rest Hlt). tauto.
  - destruct (seek_hit 2 rest) as (i & -> & Hi); [lia|].
    split; [|lia]. intros H. injection H as H.
    apply (f_equal String.length) in H.
    rewrite length_take in H; lia.
Qed.

End EndpointFacts.

Lemma endpoint_rewritten_at_most_once_witness :
  (exists a conn,
      Complete alloc_ok (mk_conn 200 []) = Complete a conn
      /\ http_conn_response_code conn = 200
      /\ first_packet (booted "https://host/old") <> 0
      /\ first_packet
           (set_in_flight 0
              (set_repeat Double.d0_01
                 (set_first_packet 0
                    (set_uri (Some "https://host/v2/x"%string)
                             (booted "https://host/old"))))) = 0)
  /\ exists w w',
      run (always (Some (patch_frame "/v2/x")))
          (fresh (booted "https://host/old"))
          [Start; Tick; Complete alloc_ok (mk_conn 200 [])] = Ok w
      /\ run (always (Some (patch_frame "/v2/x"))) w
             [Tick; Complete alloc_ok (mk_conn 200 hello); Egress hello; Tick]
         = Ok w'
      /\ uri (ctx w') = Some "https://host/v2/x"%string
      /\ uri (ctx w') = uri (ctx w).
Proof.
  split.
  - apply (proj1 (endpoint_rewritten_at_most_once
                    (always (Some (patch_frame "/v2/x"))))
             (mk_world (set_in_flight 1 (booted "https://host/old")) false
                       [mk_req (Some "https://host/old"%string)
                               http_request_get None 0] [] [])
             (Complete alloc_ok (mk_conn 200 []))
             (mk_world
                (set_in_flight 0
                   (set_repeat Double.d0_01
                      (set_first_packet 0
                         (set_uri (Some "https://host/v2/x"%string)
                                  (booted "https://host/old")))))
                false [] [c2_transport_reachable;
                          free_uri (Some "https://host"%string)] [])).
    + reflexivity.
    + cbn. discriminate.
  - do 2 eexists. split; [vm_compute; reflexivity|].
    split; [vm_compute; reflexivity|]. split; [reflexivity|].
    apply (proj2 (endpoint_rewritten_at_most_once
                    (always (Some (patch_frame "/v2/x"))))
             [Tick; Complete alloc_ok (mk_conn 200 hello); Egress hello; Tick]);
      vm_compute; reflexivity.
Defined.

Lemma empty_endpoint_rewrite_witness :
  patch_uri (always (Some (patch_frame "/v2/x"))) alloc_ok
            (set_uri_buffer (Some ""%string) (Some "--ua a/b/c/d"%string)
                            (booted "")) hello
  = Ok (set_uri (Some "/v2/x"%string)
                (set_uri_buffer (Some ""%string) (Some "--ua a/b/c/d"%string)
                                (booted "")),
        [free_uri (Some ""%string)])
  /\ patch_uri (always (Some (patch_frame "/v2/x"))) alloc_ok (booted "") hello
     = Fault OutOfBounds.
Proof.
  split.
  - apply (proj1 (proj2 (empty_endpoint_rewrite
                           (always (Some (patch_frame "/v2/x")))))
             (set_uri_buffer (Some ""%string) (Some "--ua a/b/c/d"%string)
                             (booted ""))
             hello (patch_frame "/v2/x") "/v2/x"%string
             "--ua a/b/c/d"%string); reflexivity.
  - apply (proj2 (proj2 (empty_endpoint_rewrite
                           (always (Some (patch_frame "/v2/x")))))
             alloc_ok (booted "") hello (patch_frame "/v2/x") "/v2/x"%string);
      reflexivity.
Defined.

Lemma alloc_failure_endpoint_witness :
  exists c',
    patch_uri (always (Some (patch_frame "/v2/x"))) (alloc_fail strp_untouched)
              (booted "https://host") hello = Ok (c', [])
    /\ (uri c' = uri (booted "https://host")
        <-> (CString.count "/" "ttps://host" < 3)%nat).
Proof.
  apply (alloc_failure_endpoint (always (Some (patch_frame "/v2/x")))
           (booted "https://host") hello (patch_frame "/v2/x")
           "h" "ttps://host" "/v2/x"); reflexivity.
Defined.

(** ** The requests of a run *)

Section RunFacts.

Variable decode : bytes -> option tlv_packet.

Lemma run_app (tr1 tr2 : list event) (w w' : world) :
  run decode w (tr1 ++ tr2) = Ok w' ->
  exists w1, run decode w tr1 = Ok w1 /\ run decode w1 tr2 = Ok w'.
Proof.
  revert w; induction tr1 as [|e tr1 IH]; intros w; cbn [app run].
  - eauto.
  - destruct (step decode w e) as [w1|]; [|discriminate].
    cbn [bind]. apply IH.
Qed.

Lemma initialised_content_len (c : http_ctx) :
  initialised c -> content_len c = 0.
Proof.
  intros (m & u & fx & H). unfold http_transport_init in H.
  destruct (calloc_ok m); cbn [negb] in H; [|discriminate].
  destruct (strdup_ok m); cbn [negb] in H; [|discriminate].
  destruct (buffer_queue_new_ok m); cbn [negb] in H; [|discriminate].
  injection H as <- _. reflexivity.
Qed.

Lemma wf_step (w w' : world) (e : event) :
  sound w -> content_len (ctx w) = 0 ->
  Forall wf_request (requests (calls w)) ->
  step decode w e = Ok w' ->
  content_len (ctx w') = 0 /\ Forall wf_request (requests (calls w')).
Proof.
  intros [Hd _ _ (q & He & _)] Hl Hw.
  destruct e as [|a conn|data| |]; cbn [step].
  - destruct (timer_armed w); [|discriminate].
    destruct (Z.eq_dec (in_flight (ctx w)) 0) as [Hf|Hf].
    + destruct q as [|b q].
      * rewrite (tick_get _ Hf He). cbn [bind]. intros H; injection H as <-.
        cbn [ctx calls absorb]. split; [exact Hl|].
        rewrite requests_app. apply Forall_app. split; [exact Hw|].
        cbn [requests is_request]. rewrite requests_rearm.
        constructor; [|constructor]. unfold wf_request. cbn. auto.
      * rewrite (tick_post _ (b :: q) Hf He) by discriminate.
        cbn [bind]. intros H; injection H as <-.
        cbn [ctx calls absorb]. split; [reflexivity|].
        rewrite requests_app. apply Forall_app. split; [exact Hw|].
        cbn [requests is_request]. rewrite requests_rearm.
        constructor; [|constructor]. unfold wf_request. cbn.
        exists (b :: q). repeat split. discriminate.
    + rewrite (tick_busy _ Hf). cbn [bind]. intros H; injection H as <-.
      cbn [ctx calls absorb]. split; [exact Hl|].
      now rewrite requests_app, requests_rearm, app_nil_r.
  - destruct (outstanding w); [discriminate|].
    destruct (http_poll_cb decode a conn (ctx w)) as [[c fx]|] eqn:P;
      [|discriminate].
    cbn [bind]. intros H; injection H as <-.
    apply http_poll_cb_shape in P.
    destruct P as (_ & _ & P3 & _ & _ & _ & _ & Q1 & _).
    cbn [ctx calls absorb]. split; [congruence|].
    now rewrite requests_app, Q1, app_nil_r.
  - unfold http_transport_egress. rewrite He. cbn [bind].
    intros H; injection H as <-. split; assumption.
  - unfold http_transport_start. intros H; injection H as <-.
    cbn [ctx calls absorb]. split; [exact Hl|].
    rewrite requests_app. cbn. now rewrite app_nil_r.
  - intros H; injection H as <-. rewrite stop_clears. split; assumption.
Qed.

(** X12.  Every request issued in a run from an initialised context is
    well formed: a GET is handed no body and length 0, a POST is handed
    a non-empty body together with its exact length. *)
Theorem requests_well_formed (c : http_ctx) (tr : list event) (w : world) :
  initialised c -> run decode (fresh c) tr = Ok w ->
  Forall wf_request (requests (calls w)).
Proof.
  intros Hi.
  assert (G : forall tr w0 w1,
             sound w0 -> content_len (ctx w0) = 0 ->
             Forall wf_request (requests (calls w0)) ->
             run decode w0 tr = Ok w1 ->
             Forall wf_request (requests (calls w1))).
  { clear. induction tr as [|e tr IH]; intros w0 w1 Hs Hl Hw; cbn [run].
    - intros H; injection H as <-. exact Hw.
    - destruct (step decode w0 e) as [w2|] eqn:E; [|discriminate].
      cbn [bind]. destruct (wf_step w0 w2 e Hs Hl Hw E) as [Hl2 Hw2].
      apply IH; auto. exact (sound_step decode w0 w2 e Hs E). }
  apply G.
  - now apply sound_fresh.
  - now apply initialised_content_len.
  - constructor.
Qed.

(** X15.  Before the first [Start] the transport is inert.  In a run
    from an initialised context that contains no [Start], no call is
    made, no request is outstanding, the timer is not armed, and the
    context differs from the initial one only by its queue, which
    holds every byte appended, in order. *)
Theorem inert_before_start (c : http_ctx) (tr : list event) (w : world) :
  initialised c -> ~ In Start tr -> run decode (fresh c) tr = Ok w ->
  calls w = [] /\ outstanding w = [] /\ timer_armed w = false
  /\ ctx w = set_egress (Some (appended w)) c.
Proof.
  intros Hi.
  assert (G : forall tr w0 w1 q,
             calls w0 = [] -> outstanding w0 = [] -> timer_armed w0 = false ->
             running (ctx w0) = 0 -> egress (ctx w0) = Some q ->
             ~ In Start tr -> run decode w0 tr = Ok w1 ->
             calls w1 = [] /\ outstanding w1 = [] /\ timer_armed w1 = false
             /\ exists d, appended w1 = appended w0 ++ d
                          /\ ctx w1 = set_egress (Some (q ++ d)) (ctx w0)).
  { clear. induction tr as [|e tr IH]; intros w0 w1 q Hc Ho Ht Hr He Hn;
      cbn [run].
    - intros H; injection H as <-. repeat split; auto.
      exists []. rewrite !app_nil_r. split; [reflexivity|].
      destruct w0 as [c0 ? ? ? ?]; destruct c0; cbn in *.
      unfold set_egress; cbn. now subst egress0.
    - assert (Hn' : ~ In Start tr) by (intros X; apply Hn; now right).
      destruct e as [|a conn|data| |]; cbn [step].
      + rewrite Ht. discriminate.
      + rewrite Ho. discriminate.
      + unfold http_transport_egress. rewrite He. cbn [bind]. intros H.
        apply (IH _ _ (q ++ data)) in H; cbn; auto.
        destruct H as (H1 & H2 & H3 & d & H4 & H5).
        repeat split; auto. exists (data ++ d).
        rewrite app_assoc. split; [exact H4|].
        rewrite H5. cbn. now rewrite app_assoc.
      + exfalso. apply Hn. now left.
      + cbn [bind]. intros H.
        unfold http_transport_stop in H. apply Z.eqb_eq in Hr. rewrite Hr in H.
        cbn [negb] in H. apply Z.eqb_eq in Hr.
        apply (IH _ _ q) in H; cbn; auto. }
  intros Hn Hr. apply initialised_fields in Hi.
  destruct Hi as (He & _ & _ & _ & Hrun).
  destruct (G tr (fresh c) w [] eq_refl eq_refl eq_refl Hrun He Hn Hr)
    as (H1 & H2 & H3 & d & H4 & H5).
  repeat split; auto. cbn in H4, H5. now rewrite H4.
Qed.

End RunFacts.

Lemma requests_well_formed_witness :
  exists w,
    run (always None) (fresh (booted "https://host")) session = Ok w
    /\ Forall wf_request (requests (calls w)).
Proof.
  eexists. split; [vm_compute; reflexivity|].
  apply (requests_well_formed (always None) (booted "https://host") session).
  - exact initialised_booted.
  - vm_compute; reflexivity.
Defined.

Lemma inert_before_start_witness :
  let w := mk_world (set_egress (Some (hello ++ hello)) (booted "https://host"))
                    false [] [] (hello ++ hello) in
  calls w = [] /\ outstanding w = [] /\ timer_armed w = false
  /\ ctx w = set_egress (Some (appended w)) (booted "https://host").
Proof.
  apply (inert_before_start (always None) (booted "https://host")
           [Egress hello; Stop; Egress hello]).
  - exact initialised_booted.
  - cbn. intros [H|[H|[H|[]]]]; discriminate.
  - reflexivity.
Defined.

(** ** The poll interval of a started transport *)

Lemma sf_eqb_eq (x y : spec_float) : sf_eqb x y = true -> x = y.
Proof.
  destruct x as [a|a| |a m e], y as [b|b| |b n f]; cbn; try discriminate;
    try reflexivity.
  - intros H. apply Bool.eqb_prop in H. now subst.
  - intros H. apply Bool.eqb_prop in H. now subst.
  - intros H. apply andb_prop in H. destruct H as [H H3].
    apply andb_prop in H. destruct H as [H1 H2].
    apply Bool.eqb_prop in H1. apply Pos.eqb_eq in H2. apply Z.eqb_eq in H3.
    now subst.
Qed.

Lemma mem_sf_In (x : spec_float) (l : list spec_float) :
  mem_sf x l = true -> In x l.
Proof.
  unfold mem_sf. intros H. apply existsb_exists in H.
  destruct H as (y & Hy & E). apply sf_eqb_eq in E. now subst.
Qed.

(** The ramp is closed under both outcomes of a completion. *)
Lemma ramp_closed (g : bool) (x : spec_float) :
  In x ramp_intervals -> In (interval_after g x) ramp_intervals.
Proof.
  intros H.
  assert (C : forallb (fun y =>
                mem_sf (interval_after true y) ramp_intervals
                && mem_sf (interval_after false y) ramp_intervals)
              ramp_intervals = true) by (vm_compute; reflexivity).
  rewrite forallb_forall in C. specialize (C x H).
  apply andb_prop in C. destruct C as [C1 C2].
  destruct g; apply mem_sf_In; assumption.
Qed.

Lemma ramp_facts (x : spec_float) :
  In x ramp_intervals ->
  Double.leb Double.d0_01 x = true /\ Double.leb x ramp_top = true
  /\ Double.leb x (interval_after false x) = true
  /\ (x = ramp_top \/ Double.ltb x (interval_after false x) = true).
Proof.
  intros H.
  assert (C : forallb (fun y =>
                Double.leb Double.d0_01 y && Double.leb y ramp_top
                && Double.leb y (interval_after false y)
                && (sf_eqb y ramp_top
                    || Double.ltb y (interval_after false y)))
              ramp_intervals = true) by (vm_compute; reflexivity).
  rewrite forallb_forall in C. specialize (C x H).
  apply andb_prop in C. destruct C as [C C4].
  apply andb_prop in C. destruct C as [C C3].
  apply andb_prop in C. destruct C as [C1 C2].
  repeat split; auto.
  apply orb_prop in C4. destruct C4 as [E|E]; [left|right; exact E].
  now apply sf_eqb_eq.
Qed.

Lemma backoff_interval (g : bool) (c : http_ctx) :
  repeat (backoff g c) = interval_after g (repeat c).
Proof.
  unfold backoff, interval_after. destruct g; [reflexivity|].
  destruct (Double.ltb (repeat c) Double.d0_1); [reflexivity|].
  destruct (Double.ltb (repeat c) Double.d5_0); reflexivity.
Qed.

Section IntervalFacts.

Variable decode : bytes -> option tlv_packet.

(** The interval after a completion, and when the completion counts as
    idle. *)
Lemma http_poll_cb_interval (a : allocator) (conn : http_conn)
  (c c' : http_ctx) (fx : list effect) :
  http_poll_cb decode a conn c = Ok (c', fx) ->
  exists g,
    repeat c' = interval_after g (repeat c)
    /\ (http_conn_response_code conn <> 200
        \/ (first_packet c = 0 /\ http_conn_response_queue conn = []) ->
        g = false).
Proof.
  intros H. apply http_poll_cb_unfold in H.
  destruct H as (c1 & g & fx1 & D & -> & _).
  exists g. split.
  - apply detect_command_shape in D.
    destruct D as (_ & _ & _ & _ & R & _).
    change (repeat (set_in_flight 0 (backoff g c1)))
      with (repeat (backoff g c1)).
    now rewrite backoff_interval, R.
  - intros I. unfold detect_command in D.
    destruct (http_conn_response_code conn =? 200) eqn:E.
    + apply Z.eqb_eq in E. destruct I as [I|[I1 I2]]; [contradiction|].
      rewrite I1, I2 in D. cbn in D. now injection D as _ <- _.
    + now injection D as _ <- _.
Qed.

Lemma ramp_step (w w' : world) (e : event) :
  In (repeat (ctx w)) ramp_intervals \/ e = Start ->
  step decode w e = Ok w' ->
  In (repeat (ctx w')) ramp_intervals.
Proof.
  intros H. destruct e as [|a conn|data| |]; cbn [step];
    try (destruct H as [H|H]; [|discriminate]).
  - destruct (timer_armed w); [|discriminate].
    destruct (http_poll_timer_cb (ctx w)) as [[c fx]|] eqn:T; [|discriminate].
    cbn [bind]. intros X; injection X as <-. cbn [ctx absorb].
    apply tick_keeps in T. destruct T as [(_ & -> & _)|(_ & -> & _)]; exact H.
  - destruct (outstanding w); [discriminate|].
    destruct (http_poll_cb decode a conn (ctx w)) as [[c fx]|] eqn:P;
      [|discriminate].
    cbn [bind]. intros X; injection X as <-. cbn [ctx absorb].
    apply http_poll_cb_interval in P. destruct P as (g & -> & _).
    now apply ramp_closed.
  - unfold http_transport_egress.
    destruct (egress (ctx w)); [|discriminate].
    cbn [bind]. intros X; injection X as <-. exact H.
  - intros X; injection X as <-.
    change (In Double.d0_01 ramp_intervals).
    apply mem_sf_In. vm_compute. reflexivity.
  - intros X; injection X as <-. rewrite stop_clears. exact H.
Qed.

Lemma ramp_run (tr : list event) (w w' : world) :
  In (repeat (ctx w)) ramp_intervals ->
  run decode w tr = Ok w' ->
  In (repeat (ctx w')) ramp_intervals.
Proof.
  revert w; induction tr as [|e tr IH]; intros w H; cbn [run].
  - intros X; injection X as <-. exact H.
  - destruct (step decode w e) as [w1|] eqn:E; [|discriminate].
    cbn [bind]. apply IH. exact (ramp_step w w1 e (or_introl H) E).
Qed.

Lemma ramp_after_start (pre post : list event) (w0 w : world) :
  run decode w0 (pre ++ Start :: post) = Ok w ->
  In (repeat (ctx w)) ramp_intervals.
Proof.
  intros H. apply run_app in H. destruct H as (w1 & _ & H).
  cbn [run] in H.
  destruct (step decode w1 Start) as [w2|] eqn:E; [|discriminate].
  cbn [bind] in H. apply (ramp_run post w2 w); [|exact H].
  exact (ramp_step w1 w2 Start (or_intror eq_refl) E).
Qed.

(** X13.  Once the transport has been started, whatever happened
    before and whatever the responses are, the poll interval is one of
    the 52 values of the ramp: it is never below 0.01 and never above
    5.099999999999998. *)
Theorem interval_bounded (pre post : list event) (w0 w : world) :
  run decode w0 (pre ++ Start :: post) = Ok w ->
  In (repeat (ctx w)) ramp_intervals
  /\ List.length ramp_intervals = 52%nat
  /\ Double.leb Double.d0_01 (repeat (ctx w)) = true
  /\ Double.leb (repeat (ctx w)) ramp_top = true.
Proof.
  intros H. apply ramp_after_start in H.
  destruct (ramp_facts _ H) as (B1 & B2 & _).
  split; [exact H|]. split; [vm_compute; reflexivity|].
  split; assumption.
Qed.

(** X14.  On a started transport a completion without a command (a
    status other than 200, or an empty 200 after the handshake) never
    shortens the poll interval, and lengthens it unless it already is
    5.099999999999998. *)
Theorem idle_never_decreases (pre post : list event) (w0 w : world)
  (a : allocator) (conn : http_conn) (c' : http_ctx) (fx : list effect) :
  run decode w0 (pre ++ Start :: post) = Ok w ->
  http_conn_response_code conn <> 200
  \/ (first_packet (ctx w) = 0 /\ http_conn_response_queue conn = []) ->
  http_poll_cb decode a conn (ctx w) = Ok (c', fx) ->
  Double.leb (repeat (ctx w)) (repeat c') = true
  /\ (repeat (ctx w) = ramp_top
      \/ Double.ltb (repeat (ctx w)) (repeat c') = true).
Proof.
  intros H I P. apply ramp_after_start in H.
  apply http_poll_cb_interval in P. destruct P as (g & -> & G).
  rewrite (G I).
  destruct (ramp_facts _ H) as (_ & _ & B3 & B4). auto.
Qed.

End IntervalFacts.

Lemma interval_bounded_witness :
  exists w,
    run (always None) (fresh (booted "https://host")) ([] ++ Start :: tl session)
    = Ok w
    /\ In (repeat (ctx w)) ramp_intervals
    /\ List.length ramp_intervals = 52%nat
    /\ Double.leb Double.d0_01 (repeat (ctx w)) = true
    /\ Double.leb (repeat (ctx w)) ramp_top = true.
Proof.
  eexists. split; [vm_compute; reflexivity|].
  apply (interval_bounded (always None) [] (tl session)
           (fresh (booted "https://host"))).
  vm_compute; reflexivity.
Defined.

Lemma idle_never_decreases_witness :
  exists w c',
    run (always None) (fresh (booted "https://host")) ([] ++ Start :: [Tick])
    = Ok w
    /\ http_poll_cb (always None) alloc_ok (mk_conn 503 hello) (ctx w)
       = Ok (c', [c2_transport_reachable])
    /\ repeat c' = Double.d0_1
    /\ Double.leb (repeat (ctx w)) (repeat c') = true
    /\ (repeat (ctx w) = ramp_top
        \/ Double.ltb (repeat (ctx w)) (repeat c') = true).
Proof.
  do 2 eexists. split; [vm_compute; reflexivity|].
  split; [vm_compute; reflexivity|]. split; [reflexivity|].
  apply (idle_never_decreases (always None) [] [Tick]
           (fresh (booted "https://host")) _ alloc_ok (mk_conn 503 hello)
           _ [c2_transport_reachable]).
  - vm_compute; reflexivity.
  - left. cbn. discriminate.
  - vm_compute; reflexivity.
Defined.

(** ** Where the requests go *)

Section TargetFacts.

Variable decode : bytes -> option tlv_packet.

(** The requests a step adds all name the endpoint the step found. *)
Lemma step_requests (w w' : world) (e : event) :
  step decode w e = Ok w' ->
  exists new,
    requests (calls w') = requests (calls w) ++ new
    /\ Forall (fun r => req_uri r = uri (ctx w)) new.
Proof.
  destruct e as [|a conn|data| |]; cbn [step].
  - destruct (timer_armed w); [|discriminate].
    destruct (Z.eq_dec (in_flight (ctx w)) 0) as [Hf|Hf].
    + destruct (egress (ctx w)) as [q|] eqn:He.
      * destruct q as [|b q];
          [rewrite (tick_get _ Hf He)
          |rewrite (tick_post _ (b :: q) Hf He) by discriminate];
          cbn [bind]; intros H; injection H as <-;
          cbn [calls absorb]; rewrite requests_app;
          cbn [requests is_request]; rewrite requests_rearm;
          eexists; (split; [reflexivity|]);
          constructor; [reflexivity|constructor|reflexivity|constructor].
      * unfold http_poll_timer_cb. rewrite Hf. cbn. rewrite He. discriminate.
    + rewrite (tick_busy _ Hf). cbn [bind]. intros H; injection H as <-.
      cbn [calls absorb]. rewrite requests_app, requests_rearm.
      exists []. split; [reflexivity|constructor].
  - destruct (outstanding w); [discriminate|].
    destruct (http_poll_cb decode a conn (ctx w)) as [[c fx]|] eqn:P;
      [|discriminate].
    cbn [bind]. intros H; injection H as <-.
    apply http_poll_cb_shape in P.
    destruct P as (_ & _ & _ & _ & _ & _ & _ & Q1 & _).
    cbn [calls absorb]. rewrite requests_app, Q1.
    exists []. split; [reflexivity|constructor].
  - unfold http_transport_egress.
    destruct (egress (ctx w)); [|discriminate].
    cbn [bind]. intros H; injection H as <-.
    exists []. cbn [calls]. rewrite app_nil_r. split; [reflexivity|constructor].
  - unfold http_transport_start. intros H; injection H as <-.
    cbn [calls absorb]. rewrite requests_app.
    exists []. split; [reflexivity|constructor].
  - intros H; injection H as <-.
    exists []. cbn [calls]. rewrite app_nil_r. split; [reflexivity|constructor].
Qed.

(** X16.  In a run from an initialised context every request names the
    endpoint of the initialisation or, once the handshake is consumed,
    the endpoint the handshake left: no request ever goes anywhere
    else, and none goes to the rewritten endpoint before the rewrite. *)
Theorem requests_target_endpoint (c : http_ctx) (tr : list event) (w : world) :
  initialised c -> run decode (fresh c) tr = Ok w ->
  Forall (fun r => req_uri r = uri c
                   \/ (first_packet (ctx w) = 0 /\ req_uri r = uri (ctx w)))
         (requests (calls w))
  /\ (first_packet (ctx w) <> 0 -> uri (ctx w) = uri c).
Proof.
  intros _.
  assert (G : forall tr w0 w1,
             Forall (fun r => req_uri r = uri c
                              \/ (first_packet (ctx w0) = 0
                                  /\ req_uri r = uri (ctx w0)))
                    (requests (calls w0))
             /\ (first_packet (ctx w0) <> 0 -> uri (ctx w0) = uri c) ->
             run decode w0 tr = Ok w1 ->
             Forall (fun r => req_uri r = uri c
                              \/ (first_packet (ctx w1) = 0
                                  /\ req_uri r = uri (ctx w1)))
                    (requests (calls w1))
             /\ (first_packet (ctx w1) <> 0 -> uri (ctx w1) = uri c)).
  { clear. induction tr as [|e tr IH]; intros w0 w1 [Hr Hu]; cbn [run].
    - intros H; injection H as <-. split; assumption.
    - destruct (step decode w0 e) as [w2|] eqn:E; [|discriminate].
      cbn [bind]. apply IH.
      destruct (step_requests w0 w2 e E) as (new & -> & Hnew).
      pose proof (first_packet_step decode w0 w2 e E) as F.
      pose proof (uri_step decode w0 w2 e E) as U.
      assert (K : first_packet (ctx w0) = 0 ->
                  first_packet (ctx w2) = 0 /\ uri (ctx w2) = uri (ctx w0)).
      { intros Z0. split.
        - destruct F as [->|(_ & _ & _ & _ & ->)]; auto.
        - destruct U as [->|(_ & _ & _ & _ & N & _)]; [reflexivity|contradiction]. }
      split.
      + apply Forall_app. split.
        * eapply Forall_impl; [|exact Hr]. cbn beta.
          intros r [L|[Z0 R]]; [now left|right].
          destruct (K Z0) as [K1 K2]. split; congruence.
        * eapply Forall_impl; [|exact Hnew]. cbn beta. intros r R.
          destruct (Z.eq_dec (first_packet (ctx w0)) 0) as [Z0|N0].
          -- right. destruct (K Z0) as [K1 K2]. split; congruence.
          -- left. rewrite R. now apply Hu.
      + intros N2.
        destruct F as [F|(_ & _ & _ & _ & F)]; [|contradiction].
        rewrite F in N2.
        destruct U as [->|(_ & _ & _ & _ & _ & Z2)]; [now apply Hu|].
        rewrite F in Z2. contradiction. }
  apply G. split; [constructor|reflexivity].
Qed.

(** X17.  Nothing but a response with status 200 consumes the
    handshake: in a run in which no completion has status 200,
    failures and other statuses included, the handshake flag and the
    endpoint are at the end what they were at the start. *)
Theorem handshake_waits_for_200 (tr : list event) (w w' : world) :
  (forall a conn, In (Complete a conn) tr ->
                  http_conn_response_code conn <> 200) ->
  run decode w tr = Ok w' ->
  first_packet (ctx w') = first_packet (ctx w)
  /\ uri (ctx w') = uri (ctx w).
Proof.
  revert w; induction tr as [|e tr IH]; intros w Hc; cbn [run].
  - intros H; injection H as <-. split; reflexivity.
  - destruct (step decode w e) as [w1|] eqn:E; [|discriminate].
    cbn [bind]. intros H.
    destruct (IH w1 (fun a conn X => Hc a conn (or_intror X)) H) as [-> ->].
    split.
    + destruct (first_packet_step decode w w1 e E)
        as [F|(a & conn & -> & C & _)]; [exact F|].
      exfalso. apply (Hc a conn); [now left|exact C].
    + destruct (uri_step decode w w1 e E)
        as [U|(a & conn & -> & C & _)]; [exact U|].
      exfalso. apply (Hc a conn); [now left|exact C].
Qed.

End TargetFacts.

Lemma requests_target_endpoint_witness :
  exists w,
    run (always (Some (patch_frame "/v2/x"))) (fresh (booted "https://host/old"))
        session = Ok w
    /\ requests (calls w)
       = [mk_req (Some "https://host/old"%string) http_request_get None 0;
          mk_req (Some "https://host/v2/x"%string) http_request_post
                 (Some hello) 2]
    /\ Forall (fun r => req_uri r = uri (booted "https://host/old")
                        \/ (first_packet (ctx w) = 0
                            /\ req_uri r = uri (ctx w)))
              (requests (calls w))
    /\ (first_packet (ctx w) <> 0 -> uri (ctx w) = uri (booted "https://host/old")).
Proof.
  eexists. split; [vm_compute; reflexivity|]. split; [reflexivity|].
  apply (requests_target_endpoint (always (Some (patch_frame "/v2/x")))
           (booted "https://host/old") session).
  - exists (mk_init_alloc true true true), "https://host/old"%string, [].
    reflexivity.
  - vm_compute; reflexivity.
Defined.

Lemma handshake_waits_for_200_witness :
  exists w',
    run (always (Some (patch_frame "/v2/x"))) (fresh (booted "https://host/old"))
        [Start; Tick; Complete alloc_ok (mk_conn 404 hello); Tick;
         Complete alloc_ok (mk_conn 0 [])] = Ok w'
    /\ first_packet (ctx w') = first_packet (booted "https://host/old")
    /\ uri (ctx w') = uri (booted "https://host/old").
Proof.
  eexists. split; [vm_compute; reflexivity|].
  apply (handshake_waits_for_200 (always (Some (patch_frame "/v2/x")))
           [Start; Tick; Complete alloc_ok (mk_conn 404 hello); Tick;
            Complete alloc_ok (mk_conn 0 [])]
           (fresh (booted "https://host/old"))).
  - intros a conn [H|[H|[H|[H|[H|[]]]]]]; try discriminate;
      injection H as _ <-; cbn; discriminate.
  - vm_compute; reflexivity.
Defined.
